(** * Hello_Solana: SPL token issue-and-transfer scripts

    A shallow embedding of [src/spl_token_operations_raw.ts] (web3.js and
    spl-token instructions) and [src/spl_token_operations_kit.ts]
    (Solana Kit), and the properties of their funding, probing, submission
    and provisioning steps.

    The scripts are sequential [async] functions whose only effects are
    calls across the RPC/SDK boundary, console output, timers and
    [process.exit].  A script is embedded as a tree of boundary calls
    ([prog]); [run] executes it against any boundary, threading the
    boundary's state and recording every call with its reply. *)

From Stdlib Require Import ZArith Ascii String List Bool Lia.
From Stdlib Require Import DecimalString DecimalN.
From stdpp Require Import base option list gmap strings.

Local Open Scope string_scope.
Local Open Scope Z_scope.
Local Open Scope list_scope.

(** ** Values crossing the boundary *)

(** Addresses and transaction signatures are base58 strings. *)
Definition address : Type := string.
Definition signature : Type := string.

(** A thrown JavaScript value, as far as the scripts look at it: its
    [message] (absent on a value that is no [Error]) and, for a
    [SolanaError], its numeric code. *)
Record error : Type := mkError {
  message : option string;
  solanaCode : option Z
}.

(** [new Error(msg)] *)
Definition Error (msg : string) : error := mkError (Some msg) None.

(** What reading [.includes] off an undefined [error.message] throws. *)
Definition TypeError_includes : error :=
  Error "Cannot read properties of undefined (reading 'includes')".

(** A boundary call that may reject answers [inl e]; otherwise [inr x]. *)
Definition result (X : Type) : Type := error + X.

(** [haystack.includes(needle)].  Strings are UTF-8 byte sequences; for the
    ASCII needles the scripts use, a match on bytes is a match on
    characters. *)
Definition includes (needle haystack : string) : bool :=
  match String.index 0 needle haystack with
  | Some _ => true
  | None => false
  end.

(** [LAMPORTS_PER_SOL] of web3.js. *)
Definition LAMPORTS_PER_SOL : Z := 1000000000.

(** [{ blockhash, lastValidBlockHeight }] *)
Record blockhashInfo : Type := mkBlockhash {
  blockhash : string;
  lastValidBlockHeight : Z
}.

(** One entry of [getSignatureStatuses(...).value]. *)
Record signatureStatus : Type := mkStatus {
  confirmationStatus : option string
}.

(** [getAccountInfo(...)]'s value, compared against [null] only. *)
Inductive accountValue : Type :=
| JsNull
| JsUndefined
| AccountData (owner : address) (lamports : Z).

(** [getTokenAccountBalance(...).value]: the amount is a u64 in base units,
    sent as its decimal string. *)
Record tokenAmount : Type := mkTokenAmount {
  amount : N;
  decimals : Z
}.

(** The amount string as it is on the wire. *)
Definition amountString (t : tokenAmount) : string :=
  NilZero.string_of_uint (N.to_uint (amount t)).

(** Instructions of the System, Token and Associated Token programs, as
    built by the SDK helpers the scripts call. *)
Inductive instruction : Type :=
| CreateAccount (payer newAccount : address) (space lamports : Z)
    (programId : address)
| InitializeMint (mint : address) (decimals : Z) (mintAuthority : address)
    (freezeAuthority : option address)
| CreateAssociatedToken (payer ata owner mint : address)
| CreateAssociatedTokenIdempotent (payer ata owner mint : address)
| MintTo (mint destination authority : address) (amount : Z)
| Transfer (source destination authority : address) (amount : Z).

(** A Kit transaction message and its signed form. *)
Record txMessage : Type := mkMessage {
  version : Z;
  feePayer : address;
  lifetime : blockhashInfo;
  instructions : list instruction
}.

Record signedTx : Type := mkSigned {
  signedMessage : txMessage;
  txSignature : signature
}.

(** ** Console output *)

Inductive level : Type := Log | Warn | Err.

(** Pieces of a console line.  [Quot a b] is the JavaScript number [a / b]
    as the console prints it; [Msg m] is an interpolated [error.message];
    [Obj e] a thrown value printed as such. *)
Inductive frag : Type :=
| Txt (s : string)
| Num (z : Z)
| Quot (a b : Z)
| Msg (m : option string)
| Obj (e : error).

(** ** Boundary calls *)

Inductive call : Type :=
| Console (l : level) (line : list frag)
| SetTimeout (ms : Z)
| ReadKeypairFile (path : string)
| GenerateKeyPair
| GetBalance (a : address)
| RequestAirdrop (a : address) (lamports : Z)
| GetLatestBlockhash
| ConfirmTransaction (s : signature) (b : blockhashInfo)
| GetSignatureStatuses (sigs : list signature)
| GetAccountInfo (a : address)
| GetTokenAccountBalance (a : address)
| GetAccount (a : address)
| GetMinimumBalanceForRentExemption (size : Z)
| SignTransaction (m : txMessage)
| SendAndConfirm (tx : signedTx) (commitment : string)
| SendAndConfirmTransaction (ixs : list instruction) (signers : list address).

(** What each call answers.  Console output, timers and key generation do
    not fail; every other call may reject. *)
Definition reply (c : call) : Type :=
  match c with
  | Console _ _ => unit
  | SetTimeout _ => unit
  | ReadKeypairFile _ => result address
  | GenerateKeyPair => address
  | GetBalance _ => result Z
  | RequestAirdrop _ _ => result signature
  | GetLatestBlockhash => result blockhashInfo
  | ConfirmTransaction _ _ => result unit
  | GetSignatureStatuses _ => result (list (option signatureStatus))
  | GetAccountInfo _ => result accountValue
  | GetTokenAccountBalance _ => result (option tokenAmount)
  | GetAccount _ => result N
  | GetMinimumBalanceForRentExemption _ => result Z
  | SignTransaction _ => result signedTx
  | SendAndConfirm _ _ => result unit
  | SendAndConfirmTransaction _ _ => result signature
  end.

(** A call together with the reply it got. *)
Definition event : Type := { c : call & reply c }.

(** ** Scripts *)

Inductive prog (A : Type) : Type :=
| Ret (a : A)
| Throw (e : error)
| Exit (code : Z)
| Call (c : call) (k : reply c -> prog A).

Arguments Ret {A} a.
Arguments Throw {A} e.
Arguments Exit {A} code.
Arguments Call {A} c k.

Fixpoint bind {A B : Type} (p : prog A) (f : A -> prog B) : prog B :=
  match p with
  | Ret a => f a
  | Throw e => Throw e
  | Exit c => Exit c
  | Call c k => Call c (fun r => bind (k r) f)
  end.

#[global] Instance prog_ret : MRet prog := @Ret.
#[global] Instance prog_bind : MBind prog := fun A B f p => bind p f.

(** [try { p } catch (e) { handler e }].  [process.exit] is not caught. *)
Fixpoint try_catch {A : Type} (p : prog A) (handler : error -> prog A)
  : prog A :=
  match p with
  | Ret a => Ret a
  | Throw e => handler e
  | Exit c => Exit c
  | Call c k => Call c (fun r => try_catch (k r) handler)
  end.

(** A call that cannot fail. *)
Definition perform (c : call) : prog (reply c) := Call c Ret.

(** [await] on a call that may reject: a rejection is thrown. *)
Definition await {X : Type} (c : call) (cast : reply c -> result X)
  : prog X :=
  Call c (fun r => match cast r with inl e => Throw e | inr x => Ret x end).

Definition console (l : level) (line : list frag) : prog unit :=
  perform (Console l line).

(** [await new Promise((resolve) => setTimeout(resolve, ms))] *)
Definition sleep (ms : Z) : prog unit := perform (SetTimeout ms).

(** ** Running a script against a boundary *)

Inductive outcome (A : Type) : Type :=
| Resolved (a : A)
| Rejected (e : error)
| Exited (code : Z).

Arguments Resolved {A} a.
Arguments Rejected {A} e.
Arguments Exited {A} code.

(** A boundary answers each call from its state and moves to a new state. *)
Definition boundary (W : Type) : Type := forall c : call, W -> reply c * W.

Fixpoint run {W A : Type} (h : boundary W) (p : prog A) (w : W)
  : outcome A * W * list event :=
  match p with
  | Ret a => (Resolved a, w, [])
  | Throw e => (Rejected e, w, [])
  | Exit c => (Exited c, w, [])
  | Call c k =>
      let '(r, w1) := h c w in
      let '(o, w2, t) := run h (k r) w1 in
      (o, w2, existT c r :: t)
  end.

(** The state a boundary is left in by calls that only pass through it. *)
Definition after {W : Type} (h : boundary W) (cs : list call) (w : W) : W :=
  fold_left (fun w c => snd (h c w)) cs w.

(** The unit-valued events of console lines and timers. *)
Definition said (l : level) (line : list frag) : event :=
  existT (Console l line) tt.
Definition slept (ms : Z) : event := existT (SetTimeout ms) tt.

(** The calls of a trace, and the timers, airdrop requests and status
    queries among them. *)
Definition calls (t : list event) : list call := map (@projT1 _ _) t.

Definition timeoutOf (c : call) : option Z :=
  match c with SetTimeout ms => Some ms | _ => None end.

Definition airdropOf (c : call) : option (address * Z) :=
  match c with RequestAirdrop a n => Some (a, n) | _ => None end.

Definition statusQueryOf (c : call) : option (list signature) :=
  match c with GetSignatureStatuses sigs => Some sigs | _ => None end.

Definition timeouts (t : list event) : list Z := omap timeoutOf (calls t).
Definition airdrops (t : list event) : list (address * Z) :=
  omap airdropOf (calls t).
Definition statusQueries (t : list event) : list (list signature) :=
  omap statusQueryOf (calls t).

(** ** The retrying airdrop *)

(** [m.includes("429") || m.includes("Too Many Requests")] *)
Definition rateLimited (m : string) : bool :=
  includes "429" m || includes "Too Many Requests" m.

(** [Math.pow(2, retries) * 1000] *)
Definition waitTime (retries : nat) : Z := 2 ^ Z.of_nat retries * 1000.

(** Console lines shared by the two variants of [airdropWithRetry]. *)
Definition attemptLine (amount : Z) (retries maxRetries : nat) : list frag :=
  [Txt "🚀 正在尝试空投 "; Quot amount 1000000000; Txt " SOL (尝试 ";
   Num (Z.of_nat retries + 1); Txt "/"; Num (Z.of_nat maxRetries);
   Txt ")..."].
Definition successLine : list frag := [Txt "✅ 空投成功！"].
Definition backoffLine (retries : nat) : list frag :=
  [Txt "⚠️ 触发限流，等待 "; Quot (waitTime retries) 1000; Txt " 秒后重试..."].
Definition exhaustedLine : list frag :=
  [Txt "❌ 达到最大重试次数，空投失败。"].
Definition retryLine (e : error) : list frag :=
  [Txt "🔄 发生错误: "; Msg (message e); Txt "，正在重试..."].

(** What [BigInt(s)] throws on a string that is no integer literal. *)
Definition SyntaxError_BigInt : error :=
  Error "Cannot convert string to a BigInt".

(** [BigInt(s)] on a string: the empty string is [0n]; an optional sign and
    decimal digits read as that integer; anything else is a [SyntaxError].
    (Surrounding white space and the [0x], [0o], [0b] literals, which the
    boundary never sends in an amount, are not read.) *)
Definition BigInt (s : string) : result Z :=
  match s with
  | EmptyString => inr 0
  | String c s' =>
      if Ascii.eqb c "+"%char then
        match NilZero.uint_of_string s' with
        | Some d => inr (Z.of_uint d)
        | None => inl SyntaxError_BigInt
        end
      else
        match NilZero.int_of_string s with
        | Some d => inr (Z.of_int d)
        | None => inl SyntaxError_BigInt
        end
  end.

(** [SOLANA_ERROR__BLOCK_HEIGHT_EXCEEDED] of [@solana/errors]. *)
Definition SOLANA_ERROR__BLOCK_HEIGHT_EXCEEDED : Z := 1.

(** [isSolanaError(e, code)] *)
Definition isSolanaError (e : error) (code : Z) : bool :=
  match solanaCode e with
  | Some c => c =? code
  | None => false
  end.

(** [TOKEN_PROGRAM_ADDRESS] / [TOKEN_PROGRAM_ID], and [getMintSize()] /
    [MINT_SIZE]. *)
Definition TOKEN_PROGRAM_ADDRESS : address :=
  "TokenkegQfeZyiNwAJbNbGKPFXCWuBvf9Ss623VQ5DA".
Definition MINT_SIZE : Z := 82.

(** [0.01 * 1e9]: the product is exactly 10000000 in double precision, and
    the balance it is compared with is an integer number of lamports. *)
Definition fundingThreshold : Z := 10000000.

(** [s.slice(n)]: [s] without its first [n] characters. *)
Fixpoint skip (n : nat) (s : string) : string :=
  match n, s with
  | O, _ => s
  | S n', String _ s' => skip n' s'
  | S _, EmptyString => EmptyString
  end.

(** [s.replace(pattern, replacement)] with a string pattern: the first
    occurrence of [pattern] is replaced, and a string without one is
    returned as it is.  (The [$] patterns of a replacement string are not
    interpreted; the replacements the scripts use contain none.) *)
Fixpoint replace (pattern replacement s : string) : string :=
  if String.prefix pattern s then
    String.append replacement (skip (String.length pattern) s)
  else
    match s with
    | EmptyString => EmptyString
    | String c s' => String c (replace pattern replacement s')
    end.

(** The line feed of the template strings. *)
Definition nl : string := String (Ascii.ascii_of_nat 10) EmptyString.

(** Lines printed when the funding of the payer failed. *)
Definition fundingFailedLines (e : error) (payer : address)
  : list (list frag) :=
  [[Txt (nl +:+ "❌ 支付者空投失败，程序终止")];
   [Txt "   错误详情: "; Msg (message e)];
   [Txt "   支付者地址: "; Txt payer];
   [Txt "   请手动为该地址充值 SOL 后重试"]].

(** Several [console.error] calls in a row. *)
Fixpoint consoleAll (l : level) (lines : list (list frag)) : prog unit :=
  match lines with
  | [] => Ret tt
  | line :: lines' => console l line;; consoleAll l lines'
  end.

Module Raw.

(** The [try] block of [airdropWithRetry]: request, fetch a blockhash,
    confirm against it. *)
Definition airdropAttempt (publicKey : address) (amount : Z)
    (retries maxRetries : nat) : prog signature :=
  console Log (attemptLine amount retries maxRetries);;
  signature ← await (RequestAirdrop publicKey amount) id;
  bh ← await GetLatestBlockhash id;
  await (ConfirmTransaction signature bh) id;;
  console Log successLine;;
  Ret signature.

(** The [while (retries < maxRetries)] loop; [fuel] is
    [maxRetries - retries], the iterations left.  When the loop runs out
    the function ends without a [return]: it resolves to [undefined],
    which is [None] here.  The [catch] block reads [error.message]
    unguarded. *)
Fixpoint airdropLoop (publicKey : address) (amount : Z) (maxRetries : nat)
    (fuel retries : nat) : prog (option signature) :=
  match fuel with
  | O => Ret None
  | S fuel' =>
      try_catch
        (signature ← airdropAttempt publicKey amount retries maxRetries;
         Ret (Some signature))
        (fun error =>
           let retries := S retries in
           match message error with
           | None => Throw TypeError_includes
           | Some m =>
               if rateLimited m then
                 console Warn (backoffLine retries);;
                 sleep (waitTime retries);;
                 airdropLoop publicKey amount maxRetries fuel' retries
               else if (maxRetries <=? retries)%nat then
                 console Err exhaustedLine;;
                 Throw error
               else
                 console Warn (retryLine error);;
                 airdropLoop publicKey amount maxRetries fuel' retries
           end)
  end.

Definition airdropWithRetry (publicKey : address) (amount : Z)
    (maxRetries : nat) : prog (option signature) :=
  airdropLoop publicKey amount maxRetries maxRetries 0.

(** [accountInfo !== null] *)
Definition notNull (v : accountValue) : bool :=
  match v with
  | JsNull => false
  | JsUndefined => true
  | AccountData _ _ => true
  end.

Section Script.

(** [RPC_ENDPOINT] and [PAYER_KEYPAIR_PATH] of [config.ts], read from the
    environment, and the derivation of an associated token account's
    address from mint and owner ([getAssociatedTokenAddress], for an owner
    on the curve). *)
Variables (RPC_ENDPOINT PAYER_KEYPAIR_PATH : string).
Variable getAssociatedTokenAddress : address -> address -> address.

(** [loadKeypair(path)]: read the file, parse it, build the keypair; the
    keypair is known by its public key. *)
Definition loadKeypair (path : string) : prog address :=
  await (ReadKeypairFile path) id.

(** [createMintRaw(connection, payer, mintAuthority, freezeAuthority,
    decimals)] *)
Definition createMintRaw (payer mintAuthority : address)
    (freezeAuthority : option address) (decimals : Z) : prog address :=
  mint ← perform GenerateKeyPair;
  mintRent ← await (GetMinimumBalanceForRentExemption MINT_SIZE) id;
  let createAccountInstruction :=
    CreateAccount payer mint MINT_SIZE mintRent TOKEN_PROGRAM_ADDRESS in
  let initializeMintInstruction :=
    InitializeMint mint decimals mintAuthority freezeAuthority in
  signature ← await
    (SendAndConfirmTransaction
       [createAccountInstruction; initializeMintInstruction] [payer; mint])
    id;
  console Log [Txt "   Mint 创建交易: "; Txt signature];;
  Ret mint.

(** [getOrCreateAssociatedTokenAccountRaw(connection, payer, mint, owner)] *)
Definition getOrCreateAssociatedTokenAccountRaw (payer mint owner : address)
  : prog address :=
  let associatedTokenAccount := getAssociatedTokenAddress mint owner in
  found ← try_catch
    (accountInfo ← await (GetAccountInfo associatedTokenAccount) id;
     if notNull accountInfo then
       console Log [Txt "   ATA 账户已存在，跳过创建"];;
       Ret true
     else Ret false)
    (fun _ => Ret false);
  if (found : bool) then Ret associatedTokenAccount
  else
    let createAtaInstruction :=
      CreateAssociatedTokenIdempotent payer associatedTokenAccount owner mint
    in
    signature ← await
      (SendAndConfirmTransaction [createAtaInstruction] [payer]) id;
    console Log
      [Txt "   ATA 创建交易: https://explorer.solana.com/tx/"; Txt signature;
       Txt "?cluster=devnet"];;
    Ret associatedTokenAccount.

(** [mintToRaw(connection, payer, mint, destination, authority, amount)] *)
Definition mintToRaw (payer mint destination authority : address)
    (amount : Z) : prog signature :=
  let mintToInstruction := MintTo mint destination authority amount in
  await (SendAndConfirmTransaction [mintToInstruction] [payer]) id.

(** [transferRaw(connection, payer, source, destination, authority,
    amount)] *)
Definition transferRaw (payer source destination authority : address)
    (amount : Z) : prog signature :=
  let transferInstruction :=
    Transfer source destination authority amount in
  await (SendAndConfirmTransaction [transferInstruction] [payer]) id.

(** The funding step of [main]: the body of [if (balance < 0.01 * 1e9)]. *)
Definition fundPayer (payer : address) : prog unit :=
  console Log [Txt "❌ 余额不足，请先充值 SOL"];;
  try_catch
    (airdropWithRetry payer (10 * LAMPORTS_PER_SOL) 3;; Ret tt)
    (fun error =>
       consoleAll Err (fundingFailedLines error payer);;
       Exit 1).

(** Steps 3 to 8 of [main]: mint, token accounts, issue, transfer,
    balances. *)
Definition provision (payer : address) : prog unit :=
  console Log [Txt "📝 正在使用原始指令创建新的 Token Mint..."];;
  mint ← createMintRaw payer payer (Some payer) 9;
  console Log [Txt "✅ Token Mint 地址:"; Txt mint];;
  console Log [Txt "📝 正在使用原始指令为支付者创建 Token Account..."];;
  payerTokenAccount ← getOrCreateAssociatedTokenAccountRaw payer mint payer;
  console Log [Txt "✅ 支付者 Token Account:"; Txt payerTokenAccount];;
  payerAccountInfo ← await (GetAccount payerTokenAccount) id;
  console Log [Txt "   当前余额: "; Num (Z.of_N payerAccountInfo); Txt nl];;
  let mintAmount := 1000 * 1000000000 in
  console Log
    [Txt "📝 正在使用原始指令铸造 "; Quot mintAmount 1000000000;
     Txt " 个 Token..."];;
  mintSignature ← mintToRaw payer mint payerTokenAccount payer mintAmount;
  console Log [Txt "✅ 铸造成功！"];;
  console Log [Txt "   交易签名:"; Txt mintSignature];;
  updatedAccount ← await (GetAccount payerTokenAccount) id;
  console Log
    [Txt "   新余额: "; Quot (Z.of_N updatedAccount) 1000000000;
     Txt (" tokens" +:+ nl)];;
  console Log [Txt "📝 创建接收者账户..."];;
  receiver ← perform GenerateKeyPair;
  console Log [Txt "✅ 接收者地址:"; Txt receiver];;
  console Log [Txt "📝 使用原始指令为接收者创建 Token Account..."];;
  receiverTokenAccount ←
    getOrCreateAssociatedTokenAccountRaw payer mint receiver;
  console Log [Txt "✅ 接收者 Token Account:"; Txt receiverTokenAccount];;
  receiverAccountInfo ← await (GetAccount receiverTokenAccount) id;
  console Log [Txt "   当前余额: "; Num (Z.of_N receiverAccountInfo); Txt nl];;
  let transferAmount := 100 * 1000000000 in
  console Log
    [Txt "📝 正在使用原始指令转账 "; Quot transferAmount 1000000000;
     Txt " 个 Token..."];;
  transferSignature ←
    transferRaw payer payerTokenAccount receiverTokenAccount payer
      transferAmount;
  console Log [Txt "✅ 转账成功！"];;
  console Log [Txt "   交易签名:"; Txt transferSignature];;
  console Log [Txt (nl +:+ "📊 转账后余额:")];;
  finalPayerAccount ← await (GetAccount payerTokenAccount) id;
  finalReceiverAccount ← await (GetAccount receiverTokenAccount) id;
  console Log
    [Txt "   支付者: "; Quot (Z.of_N finalPayerAccount) 1000000000;
     Txt " tokens"];;
  console Log
    [Txt "   接收者: "; Quot (Z.of_N finalReceiverAccount) 1000000000;
     Txt " tokens"].

(** [main()].  The blockhash fetched right after connecting is not used,
    but a failure to fetch it ends [main]. *)
Definition main : prog unit :=
  console Log
    [Txt (nl +:+ "=== SPL Token 发行与转账演示（使用原始指令）===" +:+ nl)];;
  await GetLatestBlockhash id;;
  console Log [Txt "✅ 连接到 Solana:"; Txt RPC_ENDPOINT];;
  payer ← loadKeypair PAYER_KEYPAIR_PATH;
  console Log [Txt "✅ 支付者地址:"; Txt payer];;
  balance ← await (GetBalance payer) id;
  console Log
    [Txt "💰 支付者余额: "; Quot balance 1000000000; Txt (" SOL" +:+ nl)];;
  (if balance <? fundingThreshold then fundPayer payer else Ret tt);;
  provision payer.

(** The script: [main().then(...).catch(...)]. *)
Definition script : prog unit :=
  try_catch
    (main;;
     console Log [Txt (nl +:+ "✅ 程序执行成功")];;
     Exit 0)
    (fun error =>
       console Err [Txt (nl +:+ "❌ 发生错误:"); Obj error];;
       Exit 1).

End Script.

End Raw.

Module Kit.

(** [status.value[0]?.confirmationStatus] *)
Definition firstConfirmationStatus (value : list (option signatureStatus))
  : option string :=
  match value with
  | Some st :: _ => confirmationStatus st
  | _ => None
  end.

Definition isConfirmed (value : list (option signatureStatus)) : bool :=
  match firstConfirmationStatus value with
  | Some s => String.eqb s "confirmed" || String.eqb s "finalized"
  | None => false
  end.

(** The polling bound and interval of the confirmation loop. *)
Definition maxPolls : nat := 30.
Definition pollInterval : Z := 1000.

Definition confirmationTimeout : error := Error "空投确认超时".

(** [for (let i = 0; i < 30; i++) { sleep; try { query } catch {} }]:
    the value of [confirmed] when the loop ends, [n] polls being left. *)
Fixpoint pollConfirmation (signature : signature) (n : nat) : prog bool :=
  match n with
  | O => Ret false
  | S n' =>
      sleep pollInterval;;
      confirmed ← try_catch
        (status ← await (GetSignatureStatuses [signature]) id;
         Ret (isConfirmed status))
        (fun _ => Ret false);
      if (confirmed : bool) then Ret true
      else pollConfirmation signature n'
  end.

(** The [try] block of [airdropWithRetry]. *)
Definition airdropAttempt (publicKey : address) (amount : Z)
    (retries maxRetries : nat) : prog signature :=
  console Log (attemptLine amount retries maxRetries);;
  signature ← await (RequestAirdrop publicKey amount) id;
  confirmed ← pollConfirmation signature maxPolls;
  (if (confirmed : bool) then Ret tt else Throw confirmationTimeout);;
  console Log successLine;;
  Ret signature.

(** [error.message?.includes(..) || error.message?.includes(..)] *)
Definition isRateLimited (e : error) : bool :=
  match message e with
  | Some m => rateLimited m
  | None => false
  end.

(** The loop, as in [Raw.airdropLoop], with the guarded classifier. *)
Fixpoint airdropLoop (publicKey : address) (amount : Z) (maxRetries : nat)
    (fuel retries : nat) : prog (option signature) :=
  match fuel with
  | O => Ret None
  | S fuel' =>
      try_catch
        (signature ← airdropAttempt publicKey amount retries maxRetries;
         Ret (Some signature))
        (fun error =>
           let retries := S retries in
           if isRateLimited error then
             console Warn (backoffLine retries);;
             sleep (waitTime retries);;
             airdropLoop publicKey amount maxRetries fuel' retries
           else if (maxRetries <=? retries)%nat then
             console Err exhaustedLine;;
             Throw error
           else
             console Warn (retryLine error);;
             airdropLoop publicKey amount maxRetries fuel' retries)
  end.

Definition airdropWithRetry (publicKey : address) (amount : Z)
    (maxRetries : nat) : prog (option signature) :=
  airdropLoop publicKey amount maxRetries maxRetries 0.


(** [getTokenBalance(rpc, tokenAccountAddress)] *)
Definition getTokenBalance (tokenAccountAddress : address) : prog Z :=
  try_catch
    (response ← await (GetTokenAccountBalance tokenAccountAddress) id;
     match response with
     | Some value =>
         match BigInt (amountString value) with
         | inr z => Ret z
         | inl e => Throw e
         end
     | None => Ret 0
     end)
    (fun _ => Ret 0).

(** [accountInfo.value !== null] *)
Definition notNull (v : accountValue) : bool :=
  match v with
  | JsNull => false
  | JsUndefined => true
  | AccountData _ _ => true
  end.

(** [accountExists(rpc, address)] *)
Definition accountExists (a : address) : prog bool :=
  try_catch
    (accountInfo ← await (GetAccountInfo a) id;
     Ret (notNull accountInfo))
    (fun _ => Ret false).

Definition blockhashExpired : error :=
  Error "Blockhash expired — transaction lifetime exceeded".

(** [sendAndConfirmTransaction(sendAndConfirmFn, instructions, feePayer,
    additionalSigners)].  The signers are taken from the message; the last
    parameter is not used by the body. *)
Definition sendAndConfirmTransaction (instructions : list instruction)
    (feePayer : address) (additionalSigners : list address)
  : prog signature :=
  latestBlockhash ← await GetLatestBlockhash id;
  let finalMessage := mkMessage 0 feePayer latestBlockhash instructions in
  signedTx ← await (SignTransaction finalMessage) id;
  try_catch
    (await (SendAndConfirm signedTx "confirmed") id;;
     Ret (txSignature signedTx))
    (fun e =>
       if isSolanaError e SOLANA_ERROR__BLOCK_HEIGHT_EXCEEDED then
         Throw blockhashExpired
       else Throw e).

(** [convertHttpToWebSocketUrl(httpUrl)] *)
Definition convertHttpToWebSocketUrl (httpUrl : string) : string :=
  if String.prefix "https://" httpUrl then
    replace "https://" "wss://" httpUrl
  else if String.prefix "http://" httpUrl then
    if includes "localhost:8899" httpUrl || includes "127.0.0.1:8899" httpUrl
    then replace ":8899" ":8900" (replace "http://" "ws://" httpUrl)
    else replace "http://" "ws://" httpUrl
  else if String.prefix "wss://" httpUrl || String.prefix "ws://" httpUrl
  then httpUrl
  else String.append "wss://" httpUrl.

Section Script.

(** [RPC_ENDPOINT] and [PAYER_KEYPAIR_PATH] of [config.ts], read from the
    environment, and the derivation of an associated token account's
    address from mint and owner ([findAssociatedTokenPda] with the token
    program's address; [getCreateAssociatedTokenInstructionAsync] derives
    the same address). *)
Variables (RPC_ENDPOINT PAYER_KEYPAIR_PATH : string).
Variable findAssociatedTokenPda : address -> address -> address.

(** [loadKeypairSigner(path)]: read the file, parse it, build the signer;
    the signer is known by its address. *)
Definition loadKeypairSigner (path : string) : prog address :=
  await (ReadKeypairFile path) id.

(** The funding step of [main]: the body of [if (balance < 0.01 * 1e9)]. *)
Definition fundPayer (payer : address) : prog unit :=
  console Log [Txt "❌ 余额不足，请先充值 SOL"];;
  try_catch
    (airdropWithRetry payer (10 * 1000000000) 3;;
     newBalance ← await (GetBalance payer) id;
     console Log
       [Txt "💰 空投后余额: "; Quot newBalance 1000000000;
        Txt (" SOL" +:+ nl)];;
     if newBalance <? fundingThreshold
     then Throw (Error "空投后余额仍然不足")
     else Ret tt)
    (fun error =>
       consoleAll Err (fundingFailedLines error payer);;
       Exit 1).

(** Step 3 of [main]: the mint account and its initialisation, in one
    transaction. *)
Definition createMint (payer : address) : prog address :=
  console Log [Txt "📝 正在创建新的 Token Mint..."];;
  mintKeypair ← perform GenerateKeyPair;
  let mintSize := MINT_SIZE in
  rentLamports ← await (GetMinimumBalanceForRentExemption mintSize) id;
  let createAccountIx :=
    CreateAccount payer mintKeypair mintSize rentLamports
      TOKEN_PROGRAM_ADDRESS in
  let initializeMintIx :=
    InitializeMint mintKeypair 9 payer (Some payer) in
  mintTxSignature ←
    sendAndConfirmTransaction [createAccountIx; initializeMintIx] payer
      [mintKeypair];
  console Log [Txt "✅ Token Mint 地址:"; Txt mintKeypair];;
  console Log [Txt "   交易签名:"; Txt mintTxSignature];;
  Ret mintKeypair.

(** Steps 4 and 6 of [main]: create the associated token account of
    [owner] unless the probe finds it; the three lines are what is printed
    on creation, on failure and when the account exists. *)
Definition ensureTokenAccount (created failed present : string)
    (payer owner mint : address) : prog address :=
  let tokenAccountAddress := findAssociatedTokenPda mint owner in
  found ← accountExists tokenAccountAddress;
  (if negb found then
     try_catch
       (let createAtaIx :=
          CreateAssociatedToken payer tokenAccountAddress owner mint in
        sendAndConfirmTransaction [createAtaIx] payer [];;
        console Log [Txt created])
       (fun error => console Err [Txt failed];; Throw error)
   else console Log [Txt present]);;
  Ret tokenAccountAddress.

(** Steps 3 to 8 of [main]. *)
Definition provision (payer : address) : prog unit :=
  mint ← createMint payer;
  console Log [Txt "📝 正在为支付者创建 Token Account (ATA)..."];;
  payerTokenAccountAddress ←
    ensureTokenAccount "✅ 已创建支付者 ATA 账户"
      "❌ 无法创建 ATA 账户，Associated Token Program API 不可用"
      "✅ 支付者 ATA 账户已存在" payer payer mint;
  payerTokenBalance ← getTokenBalance payerTokenAccountAddress;
  console Log [Txt "✅ 支付者 Token Account:"; Txt payerTokenAccountAddress];;
  console Log
    [Txt "   当前余额: "; Quot payerTokenBalance 1000000000;
     Txt (" tokens" +:+ nl)];;
  let mintAmount := 1000 * 1000000000 in
  console Log
    [Txt "📝 正在铸造 "; Quot mintAmount 1000000000; Txt " 个 Token..."];;
  mintToSignature ←
    sendAndConfirmTransaction
      [MintTo mint payerTokenAccountAddress payer mintAmount] payer [];
  console Log [Txt "✅ 铸造成功！"];;
  console Log [Txt "   交易签名:"; Txt mintToSignature];;
  updatedBalance ← getTokenBalance payerTokenAccountAddress;
  console Log
    [Txt "   新余额: "; Quot updatedBalance 1000000000;
     Txt (" tokens" +:+ nl)];;
  console Log [Txt "📝 创建接收者账户..."];;
  receiver ← perform GenerateKeyPair;
  console Log [Txt "✅ 接收者地址:"; Txt receiver];;
  console Log [Txt "📝 为接收者创建 Token Account (ATA)..."];;
  receiverTokenAccountAddress ←
    ensureTokenAccount "✅ 已创建接收者 ATA 账户"
      "❌ 无法创建接收者 ATA 账户，Associated Token Program API 不可用"
      "✅ 接收者 ATA 账户已存在" payer receiver mint;
  receiverTokenBalance ← getTokenBalance receiverTokenAccountAddress;
  console Log
    [Txt "✅ 接收者 Token Account:"; Txt receiverTokenAccountAddress];;
  console Log
    [Txt "   当前余额: "; Quot receiverTokenBalance 1000000000;
     Txt (" tokens" +:+ nl)];;
  let transferAmount := 100 * 1000000000 in
  console Log
    [Txt "📝 正在转账 "; Quot transferAmount 1000000000; Txt " 个 Token..."];;
  transferSignature ←
    sendAndConfirmTransaction
      [Transfer payerTokenAccountAddress receiverTokenAccountAddress payer
         transferAmount] payer [];
  console Log [Txt "✅ 转账成功！"];;
  console Log [Txt "   交易签名:"; Txt transferSignature];;
  console Log [Txt (nl +:+ "📊 转账后余额:")];;
  finalPayerBalance ← getTokenBalance payerTokenAccountAddress;
  finalReceiverBalance ← getTokenBalance receiverTokenAccountAddress;
  console Log
    [Txt "   支付者: "; Quot finalPayerBalance 1000000000; Txt " tokens"];;
  console Log
    [Txt "   接收者: "; Quot finalReceiverBalance 1000000000; Txt " tokens"].

(** [main()].  Building the RPC client, the subscriptions client (on
    [convertHttpToWebSocketUrl RPC_ENDPOINT]) and the send-and-confirm
    function makes no call across the boundary. *)
Definition main : prog unit :=
  console Log
    [Txt (nl +:+ "=== SPL Token 发行与转账演示 (Solana Kit SDK) ===" +:+ nl)];;
  console Log [Txt "✅ 连接到 Solana:"; Txt RPC_ENDPOINT];;
  payer ← loadKeypairSigner PAYER_KEYPAIR_PATH;
  console Log [Txt "✅ 支付者地址:"; Txt payer];;
  balance ← await (GetBalance payer) id;
  console Log
    [Txt "💰 支付者余额: "; Quot balance 1000000000; Txt (" SOL" +:+ nl)];;
  (if balance <? fundingThreshold then fundPayer payer else Ret tt);;
  provision payer.

(** The script: [main().then(...).catch(...)]. *)
Definition script : prog unit :=
  try_catch
    (main;;
     console Log [Txt (nl +:+ "✅ 程序执行成功")];;
     Exit 0)
    (fun error =>
       console Err [Txt (nl +:+ "❌ 发生错误:"); Obj error];;
       Exit 1).

End Script.

End Kit.


(** What follows a failed attempt before the next one starts: the backoff
    of a rate-limited failure, or the retry line alone. *)
Definition betweenAttempts (limited : bool) (e : error) (retries : nat)
  : list event :=
  if limited then
    [said Warn (backoffLine retries); slept (waitTime retries)]
  else [said Warn (retryLine e)].

(** Replies recorded in a trace. *)
Definition airdropReplies (t : list event) : list (result signature) :=
  omap (fun e : event =>
          match e with
          | existT (RequestAirdrop _ _) r => Some r
          | _ => None
          end) t.

Definition statusReplies (t : list event)
  : list (result (list (option signatureStatus))) :=
  omap (fun e : event =>
          match e with
          | existT (GetSignatureStatuses _) r => Some r
          | _ => None
          end) t.

Definition balanceReplies (t : list event) : list (result Z) :=
  omap (fun e : event =>
          match e with
          | existT (GetBalance _) r => Some r
          | _ => None
          end) t.

(** ** Scripted boundaries *)

(** A boundary on which every call succeeds with a fixed answer. *)
Definition calm (c : call) : reply c :=
  match c with
  | Console _ _ => tt
  | SetTimeout _ => tt
  | ReadKeypairFile _ => inr "payer"
  | GenerateKeyPair => "fresh"
  | GetBalance _ => inr 0
  | RequestAirdrop _ _ => inr "airdrop-signature"
  | GetLatestBlockhash => inr (mkBlockhash "blockhash" 100)
  | ConfirmTransaction _ _ => inr tt
  | GetSignatureStatuses _ => inr [Some (mkStatus (Some "confirmed"))]
  | GetAccountInfo _ => inr JsNull
  | GetTokenAccountBalance _ => inr None
  | GetAccount _ => inr 0%N
  | GetMinimumBalanceForRentExemption _ => inr 1461600
  | SignTransaction m => inr (mkSigned m "signature")
  | SendAndConfirm _ _ => inr tt
  | SendAndConfirmTransaction _ _ => inr "signature"
  end.

(** A faucet that answers its first [n] requests with HTTP 429 (or, with
    [e] given, with [e]) and accepts the following ones; the state counts
    the requests seen. *)
Definition tooManyRequests : error :=
  Error "429 Too Many Requests: rate limit reached".

Definition throttled (e : error) (n : nat) : boundary nat :=
  fun c w =>
    match c as c0 return reply c0 * nat with
    | RequestAirdrop _ _ =>
        (if (w <? n)%nat then inl e else inr "airdrop-signature", S w)
    | c0 => (calm c0, w)
    end.

(** A faucet that turns every request down with [e]. *)
Definition refusing (e : error) : boundary unit :=
  fun c w =>
    match c as c0 return reply c0 * unit with
    | RequestAirdrop _ _ => (inl e, w)
    | c0 => (calm c0, w)
    end.

(** Components of a run. *)
Definition result_of {W A : Type} (r : outcome A * W * list event)
  : outcome A := r.1.1.
Definition trace_of {W A : Type} (r : outcome A * W * list event)
  : list event := r.2.

(** The boundary rate-limits every airdrop request. *)
Definition alwaysThrottled {W : Type} (h : boundary W) : Prop :=
  forall (a : address) (n : Z) (w : W),
    exists (e : error) (m : string),
      (h (RequestAirdrop a n) w).1 = inl e /\
      message e = Some m /\ rateLimited m = true.

(** The boundary state in which the attempt after a backoff starts. *)
Definition afterBackoff {W : Type} (h : boundary W) (retries : nat) (w : W)
  : W :=
  after h [Console Warn (backoffLine retries); SetTimeout (waitTime retries)]
    w.

(** A polled status that does not end the confirmation loop: the query
    failed, or what it reports is neither confirmed nor finalized. *)
Definition unconfirmed (r : result (list (option signatureStatus))) : bool :=
  match r with
  | inl _ => true
  | inr value => negb (Kit.isConfirmed value)
  end.

(** One round of the confirmation loop. *)
Definition pollRound (s : signature) : list call :=
  [SetTimeout Kit.pollInterval; GetSignatureStatuses [s]].

(** The boundary never reports a signature as confirmed or finalized. *)
Definition neverConfirms {W : Type} (h : boundary W) : Prop :=
  forall (sigs : list signature) (w : W),
    unconfirmed (h (GetSignatureStatuses sigs) w).1 = true.

(** The faucet accepts every request. *)
Definition faucetAccepts {W : Type} (h : boundary W) : Prop :=
  forall (a : address) (n : Z) (w : W),
    exists s : signature, (h (RequestAirdrop a n) w).1 = inr s.

(** A boundary on which airdrops are accepted and stay at [processed]. *)
Definition pending : boundary unit :=
  fun c w =>
    match c as c0 return reply c0 * unit with
    | GetSignatureStatuses _ => (inr [Some (mkStatus (Some "processed"))], w)
    | c0 => (calm c0, w)
    end.

(** Replies to the submissions recorded in a trace. *)
Definition submitReplies (t : list event) : list (result unit) :=
  omap (fun e : event =>
          match e with
          | existT (SendAndConfirm _ _) r => Some r
          | _ => None
          end) t.

(** The error with which the Kit's send-and-confirm rejects a transaction
    whose blockhash is past its last valid block height. *)
Definition blockHeightExceeded : error :=
  mkError
    (Some "The network has progressed past the last block for which this transaction could have been committed.")
    (Some SOLANA_ERROR__BLOCK_HEIGHT_EXCEEDED).

(** A boundary on which every submission is past its lifetime. *)
Definition stale : boundary unit :=
  fun c w =>
    match c as c0 return reply c0 * unit with
    | SendAndConfirm _ _ => (inl blockHeightExceeded, w)
    | c0 => (calm c0, w)
    end.

(** A URL with a WebSocket scheme. *)
Definition isWebSocketUrl (url : string) : bool :=
  String.prefix "wss://" url || String.prefix "ws://" url.

(** ** What a script can do, whatever the boundary answers *)

(** Every call the script can make satisfies [S]. *)
Fixpoint callsIn {A : Type} (S : call -> Prop) (p : prog A) : Prop :=
  match p with
  | Call c k => S c /\ forall r, callsIn S (k r)
  | _ => True
  end.

(** Every way the script can end satisfies [Q]. *)
Fixpoint endsIn {A : Type} (Q : outcome A -> Prop) (p : prog A) : Prop :=
  match p with
  | Ret a => Q (Resolved a)
  | Throw e => Q (Rejected e)
  | Exit c => Q (Exited c)
  | Call c k => forall r, endsIn Q (k r)
  end.

(** The calls the script makes on any one path cost at most [budget]. *)
Fixpoint costWithin {A : Type} (cost : call -> Z) (budget : Z) (p : prog A)
  : Prop :=
  match p with
  | Call c k =>
      cost c <= budget /\ forall r, costWithin cost (budget - cost c) (k r)
  | _ => 0 <= budget
  end.

(** An outcome other than a returned value. *)
Definition failed {A : Type} (o : outcome A) : Prop :=
  match o with
  | Resolved _ => False
  | _ => True
  end.

(** An exit code, if the script exits, is [code]. *)
Definition exitsOnlyWith {A : Type} (code : Z) (o : outcome A) : Prop :=
  match o with
  | Exited c => c = code
  | _ => True
  end.

Definition isConsole (c : call) : Prop :=
  match c with
  | Console _ _ => True
  | _ => False
  end.

(** Once an event satisfying [bad] has happened, the script only prints and
    does not return a value. *)
Fixpoint haltsAfter {A : Type} (bad : event -> bool) (p : prog A) : Prop :=
  match p with
  | Call c k =>
      forall r,
        if bad (existT c r) then
          callsIn isConsole (k r) /\ endsIn failed (k r)
        else haltsAfter bad (k r)
  | _ => True
  end.

(** The total cost of the calls of a trace. *)
Definition totalCost (cost : call -> Z) (t : list event) : Z :=
  fold_right Z.add 0 (map cost (calls t)).

(** What a call costs under a tariff: a price per airdrop request, per
    status query, per submitted transaction and per millisecond of a
    timer; everything else is free. *)
Record tariff : Type := mkTariff {
  perAirdrop : Z;
  perStatusQuery : Z;
  perSubmission : Z;
  perMillisecond : Z
}.

Definition priced (f : tariff) (c : call) : Z :=
  match c with
  | RequestAirdrop _ _ => perAirdrop f
  | GetSignatureStatuses _ => perStatusQuery f
  | SendAndConfirm _ _ => perSubmission f
  | SendAndConfirmTransaction _ _ => perSubmission f
  | SetTimeout ms => perMillisecond f * ms
  | _ => 0
  end.

(** Counting airdrop requests, status queries, submissions, and adding up
    the milliseconds slept. *)
Definition airdropCost : call -> Z := priced (mkTariff 1 0 0 0).
Definition statusQueryCost : call -> Z := priced (mkTariff 0 1 0 0).
Definition submissionCost : call -> Z := priced (mkTariff 0 0 1 0).
Definition timerCost : call -> Z := priced (mkTariff 0 0 0 1).

(** The backoff of [fuel] rate-limited failures in a row, the first of
    them being failure number [retries + 1]. *)
Fixpoint backoffTotal (fuel retries : nat) : Z :=
  match fuel with
  | O => 0
  | S fuel' => waitTime (S retries) + backoffTotal fuel' (S retries)
  end.

(** The most an attempt, and a retry loop of [fuel] attempts, can cost. *)
Definition rawAttemptBudget (f : tariff) : Z := perAirdrop f.
Definition kitAttemptBudget (f : tariff) : Z :=
  perAirdrop f +
  Z.of_nat Kit.maxPolls *
    (perMillisecond f * Kit.pollInterval + perStatusQuery f).
Definition loopBudget (attempt : Z) (f : tariff) (fuel retries : nat) : Z :=
  Z.of_nat fuel * attempt + perMillisecond f * backoffTotal fuel retries.

(** The milliseconds a trace spends in timers. *)
Definition timeSlept (t : list event) : Z := fold_right Z.add 0 (timeouts t).

(** A submission the boundary rejected. *)
Definition rejectedSubmission (ev : event) : bool :=
  match ev with
  | existT (SendAndConfirm _ _) (inl _) => true
  | existT (SendAndConfirmTransaction _ _) (inl _) => true
  | _ => false
  end.

(** A tariff without negative prices. *)
Definition fair (f : tariff) : Prop :=
  0 <= perAirdrop f /\ 0 <= perStatusQuery f /\
  0 <= perSubmission f /\ 0 <= perMillisecond f.

(** The transactions submitted in a trace, by either SDK. *)
Definition submissionOf (c : call) : option (list instruction) :=
  match c with
  | SendAndConfirm tx _ => Some (instructions (signedMessage tx))
  | SendAndConfirmTransaction ixs _ => Some ixs
  | _ => None
  end.
Definition submissions (t : list event) : list (list instruction) :=
  omap submissionOf (calls t).

(** An outcome that is no [process.exit]. *)
Definition noExit {A : Type} (o : outcome A) : Prop :=
  match o with
  | Exited _ => False
  | _ => True
  end.

(** How [airdropWithRetry] can end: with a value, or with an error that is
    not classified as rate limiting. *)
Definition notThrottled {A : Type} (o : outcome A) : Prop :=
  match o with
  | Resolved _ => True
  | Rejected e => Kit.isRateLimited e = false
  | Exited _ => False
  end.

(** [S] holds of every call that is neither an airdrop request nor a
    submission. *)
Definition lenient (S : call -> Prop) : Prop :=
  forall c : call,
    match c with
    | RequestAirdrop _ _ => True
    | SendAndConfirm _ _ => True
    | SendAndConfirmTransaction _ _ => True
    | _ => S c
    end.

(** A call other than a submission. *)
Definition noSubmit (c : call) : Prop :=
  forall r : reply c, rejectedSubmission (existT c r) = false.

(** An airdrop request, if the call is one, is for [lamports] to [a]. *)
Definition airdropsOnly (a : address) (lamports : Z) (c : call) : Prop :=
  match c with
  | RequestAirdrop a' n => a' = a /\ n = lamports
  | _ => True
  end.

(** A boundary with a funded payer on which every submission is rejected. *)
Definition simulationFailed : error :=
  Error "Transaction simulation failed".

Definition rejecting : boundary unit :=
  fun c w =>
    match c as c0 return reply c0 * unit with
    | GetBalance _ => (inr 1000000000, w)
    | SendAndConfirm _ _ => (inl simulationFailed, w)
    | SendAndConfirmTransaction _ _ => (inl simulationFailed, w)
    | c0 => (calm c0, w)
    end.

(** The key files read in a trace, with what reading them gave. *)
Definition keyReplies (t : list event) : list (string * result address) :=
  omap (fun e : event =>
          match e return option (string * result address) with
          | existT (ReadKeypairFile path) r => Some (path, r)
          | _ => None
          end) t.

(** A derivation of associated token addresses for the scripted runs. *)
Definition deriveAta (mint owner : address) : address :=
  "ata(" +:+ mint +:+ "," +:+ owner +:+ ")".

(** The scripted runs of the two scripts on the rejecting boundary. *)
Definition rawRejectedRun : outcome unit * unit * list event :=
  run rejecting
    (Raw.script "https://api.devnet.solana.com" "./keypair.json" deriveAta)
    tt.
Definition kitRejectedRun : outcome unit * unit * list event :=
  run rejecting
    (Kit.script "https://api.devnet.solana.com" "./keypair.json" deriveAta)
    tt.

(** The boundary on which every call succeeds with its fixed answer. *)
Definition calmly : boundary unit := fun c w => (calm c, w).

(** Replies to the rent queries recorded in a trace. *)
Definition rentReplies (t : list event) : list (Z * result Z) :=
  omap (fun e : event =>
          match e return option (Z * result Z) with
          | existT (GetMinimumBalanceForRentExemption size) r =>
              Some (size, r)
          | _ => None
          end) t.

(** The signers of the transactions submitted through web3.js. *)
Definition signersOf (t : list event) : list (list address) :=
  omap (fun c =>
          match c with
          | SendAndConfirmTransaction _ signers => Some signers
          | _ => None
          end) (calls t).
(** ** Laws of [run] *)

Section RunLaws.
Context {W : Type} (h : boundary W).

Lemma run_bind {A B : Type} (p : prog A) (f : A -> prog B) (w : W) :
  run h (p ≫= f) w =
  match run h p w with
  | (Resolved a, w1, t1) =>
      let '(o, w2, t2) := run h (f a) w1 in (o, w2, t1 ++ t2)
  | (Rejected e, w1, t1) => (Rejected e, w1, t1)
  | (Exited c, w1, t1) => (Exited c, w1, t1)
  end.
Proof.
  unfold mbind, prog_bind. revert w.
  induction p as [a|e|c|c k IH]; intros w; simpl.
  - destruct (run h (f a) w) as [[o w2] t2]. reflexivity.
  - reflexivity.
  - reflexivity.
  - destruct (h c w) as [r w1]. rewrite IH.
    destruct (run h (k r) w1) as [[[a|e|x] w2] t1]; try reflexivity.
    destruct (run h (f a) w2) as [[o w3] t2]. reflexivity.
Qed.

Lemma run_try_catch {A : Type} (p : prog A) (handler : error -> prog A)
    (w : W) :
  run h (try_catch p handler) w =
  match run h p w with
  | (Rejected e, w1, t1) =>
      let '(o, w2, t2) := run h (handler e) w1 in (o, w2, t1 ++ t2)
  | r => r
  end.
Proof.
  revert w. induction p as [a|e|c|c k IH]; intros w; simpl.
  - reflexivity.
  - destruct (run h (handler e) w) as [[o w2] t2]. reflexivity.
  - reflexivity.
  - destruct (h c w) as [r w1]. rewrite IH.
    destruct (run h (k r) w1) as [[[a|e|x] w2] t1]; try reflexivity.
    destruct (run h (handler e) w2) as [[o w3] t2]. reflexivity.
Qed.

Lemma run_console {A : Type} (l : level) (line : list frag)
    (k : prog A) (w : W) :
  run h (console l line;; k) w =
  let '(o, w2, t) := run h k (after h [Console l line] w) in
  (o, w2, said l line :: t).
Proof.
  unfold mbind, prog_bind, console, perform, after, said. simpl.
  destruct (h (Console l line) w) as [[] w1]. reflexivity.
Qed.

Lemma run_sleep {A : Type} (ms : Z) (k : prog A) (w : W) :
  run h (sleep ms;; k) w =
  let '(o, w2, t) := run h k (after h [SetTimeout ms] w) in
  (o, w2, slept ms :: t).
Proof.
  unfold mbind, prog_bind, sleep, perform, after, slept. simpl.
  destruct (h (SetTimeout ms) w) as [[] w1]. reflexivity.
Qed.

Lemma run_await {X A : Type} (c : call) (cast : reply c -> result X)
    (k : X -> prog A) (w : W) :
  run h (await c cast ≫= k) w =
  let '(r, w1) := h c w in
  match cast r with
  | inl e => (Rejected e, w1, [existT c r])
  | inr x => let '(o, w2, t) := run h (k x) w1 in (o, w2, existT c r :: t)
  end.
Proof.
  unfold mbind, prog_bind, await. cbn [bind run].
  destruct (h c w) as [r w1]. destruct (cast r) as [e|x]; cbn [bind run].
  - reflexivity.
  - destruct (run h (k x) w1) as [[o w2] t]. reflexivity.
Qed.

Lemma run_ret_bind {A B : Type} (a : A) (f : A -> prog B) (w : W) :
  run h (Ret a ≫= f) w = run h (f a) w.
Proof. reflexivity. Qed.

Lemma run_throw_bind {A B : Type} (e : error) (f : A -> prog B) (w : W) :
  run h (Throw e ≫= f) w = (Rejected e, w, []).
Proof. reflexivity. Qed.

Lemma after_app (cs1 cs2 : list call) (w : W) :
  after h (cs1 ++ cs2) w = after h cs2 (after h cs1 w).
Proof. unfold after. apply fold_left_app. Qed.

End RunLaws.

Lemma calls_app (t1 t2 : list event) :
  calls (t1 ++ t2) = calls t1 ++ calls t2.
Proof. unfold calls. apply List.map_app. Qed.

Lemma calls_cons (e : event) (t : list event) :
  calls (e :: t) = projT1 e :: calls t.
Proof. reflexivity. Qed.

Lemma timeouts_app (t1 t2 : list event) :
  timeouts (t1 ++ t2) = timeouts t1 ++ timeouts t2.
Proof. unfold timeouts. rewrite calls_app. apply omap_app. Qed.

Lemma airdrops_app (t1 t2 : list event) :
  airdrops (t1 ++ t2) = airdrops t1 ++ airdrops t2.
Proof. unfold airdrops. rewrite calls_app. apply omap_app. Qed.

Lemma statusReplies_app (t1 t2 : list event) :
  statusReplies (t1 ++ t2) = statusReplies t1 ++ statusReplies t2.
Proof. unfold statusReplies. apply omap_app. Qed.

Lemma airdropReplies_app (t1 t2 : list event) :
  airdropReplies (t1 ++ t2) = airdropReplies t1 ++ airdropReplies t2.
Proof. unfold airdropReplies. apply omap_app. Qed.

Lemma statusQueries_app (t1 t2 : list event) :
  statusQueries (t1 ++ t2) = statusQueries t1 ++ statusQueries t2.
Proof. unfold statusQueries. rewrite calls_app. apply omap_app. Qed.

(** ** The retry loop, one iteration at a time *)

Section RetryLoop.
Context {W : Type} (h : boundary W).
Variables (publicKey : address) (amount : Z) (maxRetries : nat).

(** One iteration of the Kit loop: a successful attempt returns its
    signature; a rate-limited failure backs off and goes round again,
    whatever the count; any other failure is rethrown at the ceiling and
    retried at once below it. *)
Lemma kit_airdropLoop_step (fuel retries : nat) (w : W) :
  run h (Kit.airdropLoop publicKey amount maxRetries (S fuel) retries) w =
  match run h (Kit.airdropAttempt publicKey amount retries maxRetries) w with
  | (Resolved s, w1, t1) => (Resolved (Some s), w1, t1)
  | (Exited c, w1, t1) => (Exited c, w1, t1)
  | (Rejected e, w1, t1) =>
      if negb (Kit.isRateLimited e) && (maxRetries <=? S retries)%nat then
        (Rejected e, after h [Console Err exhaustedLine] w1,
         t1 ++ [said Err exhaustedLine])
      else
        let gap := betweenAttempts (Kit.isRateLimited e) e (S retries) in
        let '(o, w2, t2) :=
          run h (Kit.airdropLoop publicKey amount maxRetries fuel
                   (S retries)) (after h (calls gap) w1) in
        (o, w2, t1 ++ gap ++ t2)
  end.
Proof.
  cbn [Kit.airdropLoop]. rewrite run_try_catch, run_bind.
  destruct (run h (Kit.airdropAttempt _ _ _ _) w) as [[[s|e|c] w1] t1];
    cbn [run]; rewrite ?app_nil_r; try reflexivity.
  unfold betweenAttempts.
  destruct (Kit.isRateLimited e); cbn [negb andb].
  - rewrite run_console, run_sleep, <- after_app. cbn [app calls map projT1 said slept].
    destruct (run h _ _) as [[o w2] t2]. reflexivity.
  - destruct (maxRetries <=? S retries)%nat.
    + rewrite run_console. reflexivity.
    + rewrite run_console. cbn [app calls map projT1 said].
      destruct (run h _ _) as [[o w2] t2]. reflexivity.
Qed.

(** The same iteration of the raw loop, for a thrown value that has a
    message. *)
Lemma raw_airdropLoop_step (fuel retries : nat) (w : W) :
  run h (Raw.airdropLoop publicKey amount maxRetries (S fuel) retries) w =
  match run h (Raw.airdropAttempt publicKey amount retries maxRetries) w with
  | (Resolved s, w1, t1) => (Resolved (Some s), w1, t1)
  | (Exited c, w1, t1) => (Exited c, w1, t1)
  | (Rejected e, w1, t1) =>
      match message e with
      | None => (Rejected TypeError_includes, w1, t1)
      | Some m =>
          if negb (rateLimited m) && (maxRetries <=? S retries)%nat then
            (Rejected e, after h [Console Err exhaustedLine] w1,
             t1 ++ [said Err exhaustedLine])
          else
            let gap := betweenAttempts (rateLimited m) e (S retries) in
            let '(o, w2, t2) :=
              run h (Raw.airdropLoop publicKey amount maxRetries fuel
                       (S retries)) (after h (calls gap) w1) in
            (o, w2, t1 ++ gap ++ t2)
      end
  end.
Proof.
  cbn [Raw.airdropLoop]. rewrite run_try_catch, run_bind.
  destruct (run h (Raw.airdropAttempt _ _ _ _) w) as [[[s|e|c] w1] t1];
    cbn [run]; rewrite ?app_nil_r; try reflexivity.
  unfold betweenAttempts.
  destruct (message e) as [m|]; cbn [run]; rewrite ?app_nil_r;
    [|reflexivity].
  destruct (rateLimited m); cbn [negb andb].
  - rewrite run_console, run_sleep, <- after_app. cbn [app calls map projT1 said slept].
    destruct (run h _ _) as [[o w2] t2]. reflexivity.
  - destruct (maxRetries <=? S retries)%nat.
    + rewrite run_console. reflexivity.
    + rewrite run_console. cbn [app calls map projT1 said].
      destruct (run h _ _) as [[o w2] t2]. reflexivity.
Qed.

End RetryLoop.

(** ** Rate limiting on every attempt *)

Section Throttled.
Context {W : Type} (h : boundary W) (Hdown : alwaysThrottled h).
Variables (publicKey : address) (amount : Z) (maxRetries : nat).

Lemma kit_attempt_throttled (retries : nat) (w : W) :
  exists e w1 r,
    run h (Kit.airdropAttempt publicKey amount retries maxRetries) w =
      (Rejected e, w1,
       [said Log (attemptLine amount retries maxRetries);
        existT (RequestAirdrop publicKey amount) r]) /\
    Kit.isRateLimited e = true.
Proof.
  unfold Kit.airdropAttempt. rewrite run_console.
  set (w0 := after h _ w).
  destruct (Hdown publicKey amount w0) as (e & m & He & Hm & Hr).
  unfold mbind, prog_bind, await. cbn [bind run].
  destruct (h (RequestAirdrop publicKey amount) w0) as [r w1] eqn:Hh.
  cbn [fst] in He. subst r. cbn [id bind run].
  exists e, w1, (inl e). split; [reflexivity|].
  unfold Kit.isRateLimited. rewrite Hm. exact Hr.
Qed.

Lemma raw_attempt_throttled (retries : nat) (w : W) :
  exists e m w1 r,
    run h (Raw.airdropAttempt publicKey amount retries maxRetries) w =
      (Rejected e, w1,
       [said Log (attemptLine amount retries maxRetries);
        existT (RequestAirdrop publicKey amount) r]) /\
    message e = Some m /\ rateLimited m = true.
Proof.
  unfold Raw.airdropAttempt. rewrite run_console.
  set (w0 := after h _ w).
  destruct (Hdown publicKey amount w0) as (e & m & He & Hm & Hr).
  unfold mbind, prog_bind, await. cbn [bind run].
  destruct (h (RequestAirdrop publicKey amount) w0) as [r w1] eqn:Hh.
  cbn [fst] in He. subst r. cbn [id bind run].
  exists e, m, w1, (inl e). auto.
Qed.

(** However many iterations are left, a loop that is rate-limited every
    time runs them all, sleeps after each, and ends without a value. *)
Lemma kit_loop_throttled (fuel retries : nat) (w : W) :
  let r := run h (Kit.airdropLoop publicKey amount maxRetries fuel retries) w in
  result_of r = Resolved None /\
  airdrops (trace_of r) = repeat (publicKey, amount) fuel /\
  timeouts (trace_of r) = map waitTime (seq (S retries) fuel).
Proof.
  revert retries w. induction fuel as [|fuel IH]; intros retries w.
  - cbn. auto.
  - cbv zeta. rewrite kit_airdropLoop_step.
    destruct (kit_attempt_throttled retries w) as (e & w1 & r & -> & ->).
    cbn [negb andb betweenAttempts].
    specialize (IH (S retries) (after h (calls [said Warn (backoffLine (S retries)); slept (waitTime (S retries))]) w1)).
    destruct (run h (Kit.airdropLoop _ _ _ fuel (S retries)) _)
      as [[o w2] t2].
    unfold result_of, trace_of in *. cbn [fst snd] in *.
    destruct IH as (-> & Ha & Ht). split; [reflexivity|].
    rewrite !airdrops_app, !timeouts_app, Ha, Ht. split; reflexivity.
Qed.

Lemma raw_loop_throttled (fuel retries : nat) (w : W) :
  let r := run h (Raw.airdropLoop publicKey amount maxRetries fuel retries) w in
  result_of r = Resolved None /\
  airdrops (trace_of r) = repeat (publicKey, amount) fuel /\
  timeouts (trace_of r) = map waitTime (seq (S retries) fuel).
Proof.
  revert retries w. induction fuel as [|fuel IH]; intros retries w.
  - cbn. auto.
  - cbv zeta. rewrite raw_airdropLoop_step.
    destruct (raw_attempt_throttled retries w)
      as (e & m & w1 & r & -> & -> & ->).
    cbn [negb andb betweenAttempts].
    specialize (IH (S retries) (after h (calls [said Warn (backoffLine (S retries)); slept (waitTime (S retries))]) w1)).
    destruct (run h (Raw.airdropLoop _ _ _ fuel (S retries)) _)
      as [[o w2] t2].
    unfold result_of, trace_of in *. cbn [fst snd] in *.
    destruct IH as (-> & Ha & Ht). split; [reflexivity|].
    rewrite !airdrops_app, !timeouts_app, Ha, Ht. split; reflexivity.
Qed.

End Throttled.

(** C1 (as the code behaves).  When the faucet rate-limits every request,
    [airdropWithRetry] with three attempts makes exactly three requests,
    backs off after each of them (2 s, 4 s and 8 s) and then resolves to
    [undefined]: the loop ends and nothing is thrown.  Both variants. *)
Theorem airdropWithRetry_throttled_resolves_undefined :
  forall (W : Type) (h : boundary W) (publicKey : address) (amount : Z)
         (w : W),
    alwaysThrottled h ->
    (let r := run h (Raw.airdropWithRetry publicKey amount 3) w in
     result_of r = Resolved None /\
     airdrops (trace_of r) = repeat (publicKey, amount) 3 /\
     timeouts (trace_of r) = [2000; 4000; 8000]) /\
    (let r := run h (Kit.airdropWithRetry publicKey amount 3) w in
     result_of r = Resolved None /\
     airdrops (trace_of r) = repeat (publicKey, amount) 3 /\
     timeouts (trace_of r) = [2000; 4000; 8000]).
Proof.
  intros W h publicKey amount w Hdown. split.
  - exact (raw_loop_throttled h Hdown publicKey amount 3 3 0 w).
  - exact (kit_loop_throttled h Hdown publicKey amount 3 3 0 w).
Qed.

Lemma refusing_alwaysThrottled : alwaysThrottled (refusing tooManyRequests).
Proof.
  intros a n w. exists tooManyRequests, "429 Too Many Requests: rate limit reached".
  repeat split.
Qed.

Lemma airdropWithRetry_throttled_resolves_undefined_witness :
  alwaysThrottled (refusing tooManyRequests) /\
  result_of (run (refusing tooManyRequests)
               (Raw.airdropWithRetry "payer" 10000000000 3) tt)
    = Resolved None /\
  result_of (run (refusing tooManyRequests)
               (Kit.airdropWithRetry "payer" 10000000000 3) tt)
    = Resolved None.
Proof.
  split; [exact refusing_alwaysThrottled|].
  destruct (airdropWithRetry_throttled_resolves_undefined unit
              (refusing tooManyRequests) "payer" 10000000000 tt
              refusing_alwaysThrottled) as [[Hraw _] [Hkit _]].
  split; [exact Hraw | exact Hkit].
Defined.

(** ** Two rate-limited failures, then success *)

Section TwiceThenSuccess.
Context {W : Type} (h : boundary W).
Variables (publicKey : address) (amount : Z).

Lemma kit_twice_then_success
    (w0 w1 w2 w3 : W) (e1 e2 : error) (s : signature)
    (t1 t2 t3 : list event) :
  run h (Kit.airdropAttempt publicKey amount 0 3) w0 = (Rejected e1, w1, t1) ->
  Kit.isRateLimited e1 = true ->
  run h (Kit.airdropAttempt publicKey amount 1 3) (afterBackoff h 1 w1)
    = (Rejected e2, w2, t2) ->
  Kit.isRateLimited e2 = true ->
  run h (Kit.airdropAttempt publicKey amount 2 3) (afterBackoff h 2 w2)
    = (Resolved s, w3, t3) ->
  run h (Kit.airdropWithRetry publicKey amount 3) w0 =
    (Resolved (Some s), w3,
     t1 ++ [said Warn (backoffLine 1); slept 2000] ++
     t2 ++ [said Warn (backoffLine 2); slept 4000] ++ t3).
Proof.
  intros H1 R1 H2 R2 H3. unfold Kit.airdropWithRetry, afterBackoff in *.
  rewrite kit_airdropLoop_step, H1, R1. cbn [negb andb betweenAttempts calls map projT1 said slept].
  rewrite kit_airdropLoop_step, H2, R2. cbn [negb andb betweenAttempts calls map projT1 said slept].
  rewrite kit_airdropLoop_step, H3. reflexivity.
Qed.

Lemma raw_twice_then_success
    (w0 w1 w2 w3 : W) (e1 e2 : error) (m1 m2 : string) (s : signature)
    (t1 t2 t3 : list event) :
  run h (Raw.airdropAttempt publicKey amount 0 3) w0 = (Rejected e1, w1, t1) ->
  message e1 = Some m1 -> rateLimited m1 = true ->
  run h (Raw.airdropAttempt publicKey amount 1 3) (afterBackoff h 1 w1)
    = (Rejected e2, w2, t2) ->
  message e2 = Some m2 -> rateLimited m2 = true ->
  run h (Raw.airdropAttempt publicKey amount 2 3) (afterBackoff h 2 w2)
    = (Resolved s, w3, t3) ->
  run h (Raw.airdropWithRetry publicKey amount 3) w0 =
    (Resolved (Some s), w3,
     t1 ++ [said Warn (backoffLine 1); slept 2000] ++
     t2 ++ [said Warn (backoffLine 2); slept 4000] ++ t3).
Proof.
  intros H1 M1 R1 H2 M2 R2 H3. unfold Raw.airdropWithRetry, afterBackoff in *.
  rewrite raw_airdropLoop_step, H1, M1, R1. cbn [negb andb betweenAttempts calls map projT1 said slept].
  rewrite raw_airdropLoop_step, H2, M2, R2. cbn [negb andb betweenAttempts calls map projT1 said slept].
  rewrite raw_airdropLoop_step, H3. reflexivity.
Qed.

(** Below the ceiling, a failure that is not rate-limited is followed by
    the retry line and, with no timer in between, the next attempt. *)
Lemma kit_retry_without_backoff (maxRetries fuel retries : nat)
    (w w1 : W) (e : error) (t1 : list event) :
  run h (Kit.airdropAttempt publicKey amount retries maxRetries) w
    = (Rejected e, w1, t1) ->
  Kit.isRateLimited e = false ->
  (S retries < maxRetries)%nat ->
  run h (Kit.airdropLoop publicKey amount maxRetries (S fuel) retries) w =
    let '(o, w2, t2) :=
      run h (Kit.airdropLoop publicKey amount maxRetries fuel (S retries))
        (after h [Console Warn (retryLine e)] w1) in
    (o, w2, t1 ++ said Warn (retryLine e) :: t2).
Proof.
  intros H1 R1 Hlt. rewrite kit_airdropLoop_step, H1, R1.
  replace (maxRetries <=? S retries)%nat with false
    by (symmetry; apply Nat.leb_gt; lia).
  reflexivity.
Qed.

Lemma raw_retry_without_backoff (maxRetries fuel retries : nat)
    (w w1 : W) (e : error) (m : string) (t1 : list event) :
  run h (Raw.airdropAttempt publicKey amount retries maxRetries) w
    = (Rejected e, w1, t1) ->
  message e = Some m -> rateLimited m = false ->
  (S retries < maxRetries)%nat ->
  run h (Raw.airdropLoop publicKey amount maxRetries (S fuel) retries) w =
    let '(o, w2, t2) :=
      run h (Raw.airdropLoop publicKey amount maxRetries fuel (S retries))
        (after h [Console Warn (retryLine e)] w1) in
    (o, w2, t1 ++ said Warn (retryLine e) :: t2).
Proof.
  intros H1 M1 R1 Hlt. rewrite raw_airdropLoop_step, H1, M1, R1.
  replace (maxRetries <=? S retries)%nat with false
    by (symmetry; apply Nat.leb_gt; lia).
  reflexivity.
Qed.

End TwiceThenSuccess.

(** C3.  With three attempts allowed, an airdrop whose first two attempts
    fail with a rate-limiting error and whose third succeeds returns the
    third attempt's signature; between the attempts it sleeps exactly
    twice, [2^1 * 1000] = 2000 ms and then [2^2 * 1000] = 4000 ms.  A
    failure that is not rate-limited is, below the ceiling, followed by the
    next attempt with no timer in between.  Both variants. *)
Theorem airdropWithRetry_backoff_twice_then_success :
  forall (W : Type) (h : boundary W) (publicKey : address) (amount : Z),
    (forall (w0 w1 w2 w3 : W) (e1 e2 : error) (s : signature)
            (t1 t2 t3 : list event),
        run h (Kit.airdropAttempt publicKey amount 0 3) w0
          = (Rejected e1, w1, t1) ->
        Kit.isRateLimited e1 = true ->
        run h (Kit.airdropAttempt publicKey amount 1 3) (afterBackoff h 1 w1)
          = (Rejected e2, w2, t2) ->
        Kit.isRateLimited e2 = true ->
        run h (Kit.airdropAttempt publicKey amount 2 3) (afterBackoff h 2 w2)
          = (Resolved s, w3, t3) ->
        run h (Kit.airdropWithRetry publicKey amount 3) w0 =
          (Resolved (Some s), w3,
           t1 ++ [said Warn (backoffLine 1); slept 2000] ++
           t2 ++ [said Warn (backoffLine 2); slept 4000] ++ t3)) /\
    (forall (w0 w1 w2 w3 : W) (e1 e2 : error) (m1 m2 : string)
            (s : signature) (t1 t2 t3 : list event),
        run h (Raw.airdropAttempt publicKey amount 0 3) w0
          = (Rejected e1, w1, t1) ->
        message e1 = Some m1 -> rateLimited m1 = true ->
        run h (Raw.airdropAttempt publicKey amount 1 3) (afterBackoff h 1 w1)
          = (Rejected e2, w2, t2) ->
        message e2 = Some m2 -> rateLimited m2 = true ->
        run h (Raw.airdropAttempt publicKey amount 2 3) (afterBackoff h 2 w2)
          = (Resolved s, w3, t3) ->
        run h (Raw.airdropWithRetry publicKey amount 3) w0 =
          (Resolved (Some s), w3,
           t1 ++ [said Warn (backoffLine 1); slept 2000] ++
           t2 ++ [said Warn (backoffLine 2); slept 4000] ++ t3)) /\
    (forall (maxRetries fuel retries : nat) (w w1 : W) (e : error)
            (t1 : list event),
        run h (Kit.airdropAttempt publicKey amount retries maxRetries) w
          = (Rejected e, w1, t1) ->
        Kit.isRateLimited e = false ->
        (S retries < maxRetries)%nat ->
        run h (Kit.airdropLoop publicKey amount maxRetries (S fuel) retries) w
        = let '(o, w2, t2) :=
            run h (Kit.airdropLoop publicKey amount maxRetries fuel
                     (S retries))
              (after h [Console Warn (retryLine e)] w1) in
          (o, w2, t1 ++ said Warn (retryLine e) :: t2)) /\
    (forall (maxRetries fuel retries : nat) (w w1 : W) (e : error)
            (m : string) (t1 : list event),
        run h (Raw.airdropAttempt publicKey amount retries maxRetries) w
          = (Rejected e, w1, t1) ->
        message e = Some m -> rateLimited m = false ->
        (S retries < maxRetries)%nat ->
        run h (Raw.airdropLoop publicKey amount maxRetries (S fuel) retries) w
        = let '(o, w2, t2) :=
            run h (Raw.airdropLoop publicKey amount maxRetries fuel
                     (S retries))
              (after h [Console Warn (retryLine e)] w1) in
          (o, w2, t1 ++ said Warn (retryLine e) :: t2)).
Proof.
  intros W h publicKey amount. repeat split; intros.
  - eapply kit_twice_then_success; eassumption.
  - eapply raw_twice_then_success; eassumption.
  - eapply kit_retry_without_backoff; eassumption.
  - eapply raw_retry_without_backoff; eassumption.
Qed.

Lemma airdropWithRetry_backoff_twice_then_success_witness :
  (let r := run (throttled tooManyRequests 2)
              (Kit.airdropWithRetry "payer" 10000000000 3) 0%nat in
   result_of r = Resolved (Some "airdrop-signature") /\
   timeouts (trace_of r) = [2000; 4000; 1000]) /\
  (let r := run (throttled tooManyRequests 2)
              (Raw.airdropWithRetry "payer" 10000000000 3) 0%nat in
   result_of r = Resolved (Some "airdrop-signature") /\
   timeouts (trace_of r) = [2000; 4000]).
Proof.
  destruct (airdropWithRetry_backoff_twice_then_success nat
              (throttled tooManyRequests 2) "payer" 10000000000)
    as (Hkit & Hraw & _ & _).
  split; cbv zeta.
  - erewrite Hkit; [|reflexivity ..]. split; reflexivity.
  - erewrite Hraw; [|reflexivity ..]. split; reflexivity.
Defined.

(** ** The confirmation poll *)

Section Poll.
Context {W : Type} (h : boundary W).

Lemma pollConfirmation_step (s : signature) (n : nat) (w : W) :
  run h (Kit.pollConfirmation s (S n)) w =
  let w1 := after h [SetTimeout Kit.pollInterval] w in
  let '(r, w2) := h (GetSignatureStatuses [s]) w1 in
  if unconfirmed r then
    let '(o, w3, t) := run h (Kit.pollConfirmation s n) w2 in
    (o, w3, slept Kit.pollInterval :: existT (GetSignatureStatuses [s]) r :: t)
  else
    (Resolved true, w2,
     [slept Kit.pollInterval; existT (GetSignatureStatuses [s]) r]).
Proof.
  cbn [Kit.pollConfirmation]. rewrite run_sleep. cbv zeta.
  set (w1 := after h _ w).
  rewrite run_bind, run_try_catch.
  unfold mbind, prog_bind, await. cbn [bind run].
  destruct (h (GetSignatureStatuses [s]) w1) as [[e|value] w2].
  - cbn [id bind run unconfirmed app].
    destruct (run h (Kit.pollConfirmation s n) w2) as [[o w3] t].
    reflexivity.
  - cbn [id bind run unconfirmed app].
    destruct (Kit.isConfirmed value); cbn [negb run app].
    + reflexivity.
    + destruct (run h (Kit.pollConfirmation s n) w2) as [[o w3] t].
      reflexivity.
Qed.

(** The loop makes [k <= n] rounds, each a 1000 ms timer followed by one
    status query; it ends with [confirmed] set exactly when the last
    polled status is confirmed or finalized, and when no polled status is,
    it makes all [n] rounds. *)
Lemma pollConfirmation_run (s : signature) (n : nat) (w : W) :
  let r := run h (Kit.pollConfirmation s n) w in
  exists k : nat,
    (k <= n)%nat /\
    calls (trace_of r) = concat (repeat (pollRound s) k) /\
    length (statusReplies (trace_of r)) = k /\
    ((result_of r = Resolved false /\ k = n /\
      forallb unconfirmed (statusReplies (trace_of r)) = true) \/
     (result_of r = Resolved true /\
      forallb unconfirmed (statusReplies (trace_of r)) = false)).
Proof.
  revert w. induction n as [|n IH]; intros w; cbv zeta.
  - exists 0%nat. cbn. repeat split; auto.
  - rewrite pollConfirmation_step. cbv zeta.
    set (w1 := after h _ w).
    destruct (h (GetSignatureStatuses [s]) w1) as [r w2].
    destruct (unconfirmed r) eqn:Hr.
    + specialize (IH w2). cbv zeta in IH.
      destruct (run h (Kit.pollConfirmation s n) w2) as [[o w3] t].
      destruct IH as (k & Hk & Hc & Hl & Hres).
      unfold result_of, trace_of in *. cbn [fst snd] in *.
      exists (S k). split; [lia|].
      split; [unfold calls in *; cbn [map repeat concat]; rewrite Hc;
              reflexivity|].
      change (statusReplies (slept Kit.pollInterval ::
                existT (GetSignatureStatuses [s]) r :: t))
        with (r :: statusReplies t).
      split; [cbn [length]; rewrite Hl; reflexivity|].
      cbn [forallb]. rewrite Hr. cbn [andb].
      destruct Hres as [(-> & -> & ->)|(-> & ->)]; [left|right]; auto.
    + exists 1%nat. unfold result_of, trace_of. cbn [fst snd].
      split; [lia|]. split; [reflexivity|]. split; [reflexivity|].
      right. cbn. rewrite Hr. auto.
Qed.

End Poll.

Section PollTimeout.
Context {W : Type} (h : boundary W).
Variables (publicKey : address) (amount : Z).

(** One attempt of the Kit variant, by what the faucet answered. *)
Lemma kit_attempt_run (retries maxRetries : nat) (w : W) :
  let r := run h (Kit.airdropAttempt publicKey amount retries maxRetries) w in
  (exists e, airdropReplies (trace_of r) = [inl e] /\
     result_of r = Rejected e /\ statusReplies (trace_of r) = [] /\
     timeouts (trace_of r) = []) \/
  (exists s k,
     airdropReplies (trace_of r) = [inr s] /\ (k <= Kit.maxPolls)%nat /\
     length (statusReplies (trace_of r)) = k /\
     calls (trace_of r) =
       [Console Log (attemptLine amount retries maxRetries);
        RequestAirdrop publicKey amount] ++
       concat (repeat (pollRound s) k) ++
       (if forallb unconfirmed (statusReplies (trace_of r)) then []
        else [Console Log successLine]) /\
     if forallb unconfirmed (statusReplies (trace_of r)) then
       result_of r = Rejected Kit.confirmationTimeout /\ k = Kit.maxPolls
     else result_of r = Resolved s).
Proof.
  cbv zeta. unfold Kit.airdropAttempt. rewrite run_console, run_await.
  destruct (h (RequestAirdrop publicKey amount) _) as [[e|s] w1];
    cbn [id].
  - left. exists e. cbn. auto.
  - right. rewrite run_bind.
    pose proof (pollConfirmation_run h s Kit.maxPolls w1) as Hp.
    cbv zeta in Hp.
    destruct (run h (Kit.pollConfirmation s Kit.maxPolls) w1)
      as [[o w2] t].
    destruct Hp as (k & Hk & Hc & Hl & Hres).
    unfold result_of, trace_of in *. cbn [fst snd] in *.
    assert (Hst : forall t', statusReplies
              (said Log (attemptLine amount retries maxRetries) ::
               existT (RequestAirdrop publicKey amount) (inr s) :: t')
              = statusReplies t') by reflexivity.
    assert (Har : forall t', airdropReplies t' = [] ->
              airdropReplies
                (said Log (attemptLine amount retries maxRetries) ::
                 existT (RequestAirdrop publicKey amount) (inr s) :: t')
              = [inr s]).
    { intros t' Ht'. change (inr s :: airdropReplies t' = [inr s]).
      now rewrite Ht'. }
    assert (Hno : airdropReplies t = []).
    { clear - Hc. revert t Hc. induction k as [|k IH]; intros t Hc.
      - destruct t; [reflexivity|discriminate].
      - destruct t as [|[c1 r1] [|[c2 r2] t]]; try discriminate.
        cbn in Hc. injection Hc as -> -> Hc. cbn. apply IH. exact Hc. }
    exists s, k.
    destruct Hres as [(-> & -> & Hall)|(-> & Hall)].
    + rewrite run_throw_bind. cbn [snd fst].
      rewrite Hst, app_nil_r, Hall, app_nil_r.
      repeat split; auto. now rewrite !calls_cons, Hc.
    + rewrite run_ret_bind, run_console. cbn [run fst snd].
      rewrite Hst. unfold statusReplies. rewrite omap_app.
      fold (statusReplies t). cbn [omap]. rewrite app_nil_r, Hall.
      repeat split; auto.
      * apply Har. unfold airdropReplies. rewrite omap_app.
        fold (airdropReplies t). now rewrite Hno.
      * rewrite !calls_cons, calls_app, Hc. reflexivity.
Qed.

End PollTimeout.

(** Every reply in a trace is what the boundary answered in some state. *)
Lemma run_trace_answers {W A : Type} (h : boundary W) (p : prog A) (w : W) :
  Forall (fun ev : event => exists w', projT2 ev = (h (projT1 ev) w').1)
    (trace_of (run h p w)).
Proof.
  revert w. induction p as [a|e|c|c k IH]; intros w; cbn [run];
    try (unfold trace_of; cbn; constructor).
  destruct (h c w) as [r w1] eqn:Hh. specialize (IH r w1).
  destruct (run h (k r) w1) as [[o w2] t].
  unfold trace_of in *. cbn [snd] in *. constructor; [|exact IH].
  exists w. cbn [projT1 projT2]. now rewrite Hh.
Qed.

Lemma timeouts_pollRounds (s : signature) (k : nat) :
  omap timeoutOf (concat (repeat (pollRound s) k))
  = repeat Kit.pollInterval k.
Proof.
  induction k as [|k IH]; [reflexivity|].
  cbn. f_equal. exact IH.
Qed.

Section NeverConfirmed.
Context {W : Type} (h : boundary W).
Hypothesis (Haccept : faucetAccepts h) (Hpending : neverConfirms h).
Variables (publicKey : address) (amount : Z) (maxRetries : nat).

Lemma statusReplies_unconfirmed {A : Type} (p : prog A) (w : W) :
  forallb unconfirmed (statusReplies (trace_of (run h p w))) = true.
Proof.
  pose proof (run_trace_answers h p w) as Hall.
  induction Hall as [|[c r] t (w' & Hr) _ IH]; [reflexivity|].
  destruct c; try exact IH.
  change (unconfirmed r && forallb unconfirmed (statusReplies t) = true).
  cbn [projT1 projT2] in Hr. rewrite IH, Hr, Hpending. reflexivity.
Qed.

Lemma kit_attempt_times_out (retries : nat) (w : W) :
  let r := run h (Kit.airdropAttempt publicKey amount retries maxRetries) w in
  result_of r = Rejected Kit.confirmationTimeout /\
  length (statusReplies (trace_of r)) = Kit.maxPolls /\
  timeouts (trace_of r) = repeat Kit.pollInterval Kit.maxPolls.
Proof.
  cbv zeta.
  pose proof (statusReplies_unconfirmed
                (Kit.airdropAttempt publicKey amount retries maxRetries) w)
    as Hun.
  pose proof (run_trace_answers h
                (Kit.airdropAttempt publicKey amount retries maxRetries) w)
    as Hans.
  destruct (kit_attempt_run h publicKey amount retries maxRetries w)
    as [(e & He & _)|(s & k & _ & _ & Hl & Hc & Hres)].
  - exfalso. revert He Hans.
    generalize (trace_of (run h (Kit.airdropAttempt publicKey amount
                                   retries maxRetries) w)).
    intros t He Hans. induction Hans as [|[c r] t (w' & Hr) _ IH];
      [discriminate|].
    destruct c; try (apply IH; exact He).
    cbn [projT1 projT2] in Hr.
    change (r :: airdropReplies t = [inl e]) in He.
    injection He as -> _.
    destruct (Haccept a lamports w') as (s & Hs). congruence.
  - rewrite Hun in Hres, Hc. destruct Hres as (Hres & ->).
    repeat split; auto.
    unfold timeouts. rewrite Hc, app_nil_r, omap_app, timeouts_pollRounds.
    apply app_nil_l.
Qed.

Lemma kit_loop_times_out (fuel retries : nat) (w : W) :
  (S fuel + retries = maxRetries)%nat ->
  let r := run h (Kit.airdropLoop publicKey amount maxRetries (S fuel)
                    retries) w in
  result_of r = Rejected Kit.confirmationTimeout /\
  length (statusReplies (trace_of r)) = (S fuel * Kit.maxPolls)%nat /\
  timeouts (trace_of r) = repeat Kit.pollInterval (S fuel * Kit.maxPolls).
Proof.
  revert retries w. induction fuel as [|fuel IH]; intros retries w Hsum;
    cbv zeta; rewrite kit_airdropLoop_step;
    pose proof (kit_attempt_times_out retries w) as Hat; cbv zeta in Hat;
    destruct (run h (Kit.airdropAttempt _ _ _ _) w) as [[o w1] t1];
    unfold result_of, trace_of in *; cbn [fst snd] in *;
    destruct Hat as (-> & Hl & Ht);
    change (Kit.isRateLimited Kit.confirmationTimeout) with false;
    cbn [negb andb betweenAttempts].
  - replace (maxRetries <=? S retries)%nat with true
      by (symmetry; apply Nat.leb_le; lia).
    cbn [fst snd]. rewrite statusReplies_app, timeouts_app, length_app, Hl, Ht.
    change (statusReplies [said Err exhaustedLine]) with
      (@nil (result (list (option signatureStatus)))).
    change (timeouts [said Err exhaustedLine]) with (@nil Z).
    rewrite app_nil_r, Nat.mul_1_l. cbn [length]. split; [reflexivity|].
    split; [lia|reflexivity].
  - replace (maxRetries <=? S retries)%nat with false
      by (symmetry; apply Nat.leb_gt; lia).
    specialize (IH (S retries)
                  (after h (calls [said Warn (retryLine Kit.confirmationTimeout)]) w1)
                  ltac:(lia)).
    cbv zeta in IH.
    destruct (run h (Kit.airdropLoop _ _ _ (S fuel) (S retries)) _)
      as [[o w2] t2].
    cbn [fst snd] in *. destruct IH as (-> & Hl2 & Ht2).
    split; [reflexivity|].
    rewrite !statusReplies_app, !timeouts_app, !length_app, Hl, Hl2, Ht, Ht2.
    change (statusReplies [said Warn (retryLine Kit.confirmationTimeout)])
      with (@nil (result (list (option signatureStatus)))).
    change (timeouts [said Warn (retryLine Kit.confirmationTimeout)])
      with (@nil Z).
    cbn [length app]. split; [lia|].
    rewrite <- repeat_app. reflexivity.
Qed.

End NeverConfirmed.

(** C4.  One funding attempt of the Kit variant polls the signature status
    in rounds of one 1000 ms timer and one query, at most 30 rounds.  If
    the faucet rejects the request, the attempt fails with the faucet's own
    error and polls nothing.  If the request is accepted and no polled
    status is confirmed or finalized, the attempt makes all 30 rounds and
    fails with the script's timeout error, whose message is fixed and is
    not classified as rate limiting; if no attempt out of three is ever
    confirmed, that timeout error is what [airdropWithRetry] rejects
    with. *)
Theorem airdrop_confirmation_poll_times_out :
  forall (W : Type) (h : boundary W) (publicKey : address) (amount : Z),
    (forall (retries maxRetries : nat) (w : W),
        let r := run h (Kit.airdropAttempt publicKey amount retries
                          maxRetries) w in
        (exists e, airdropReplies (trace_of r) = [inl e] /\
           result_of r = Rejected e /\ statusReplies (trace_of r) = [] /\
           timeouts (trace_of r) = []) \/
        (exists s k,
           airdropReplies (trace_of r) = [inr s] /\ (k <= 30)%nat /\
           length (statusReplies (trace_of r)) = k /\
           calls (trace_of r) =
             [Console Log (attemptLine amount retries maxRetries);
              RequestAirdrop publicKey amount] ++
             concat (repeat [SetTimeout 1000; GetSignatureStatuses [s]] k) ++
             (if forallb unconfirmed (statusReplies (trace_of r)) then []
              else [Console Log successLine]) /\
           if forallb unconfirmed (statusReplies (trace_of r)) then
             result_of r = Rejected Kit.confirmationTimeout /\ k = 30%nat
           else result_of r = Resolved s)) /\
    (faucetAccepts h -> neverConfirms h ->
     forall w : W,
       let r := run h (Kit.airdropWithRetry publicKey amount 3) w in
       result_of r = Rejected Kit.confirmationTimeout /\
       length (statusReplies (trace_of r)) = 90%nat /\
       timeouts (trace_of r) = repeat 1000 90) /\
    message Kit.confirmationTimeout = Some "空投确认超时" /\
    Kit.isRateLimited Kit.confirmationTimeout = false /\
    (forall e : error,
        message e <> Some "空投确认超时" -> e <> Kit.confirmationTimeout).
Proof.
  intros W h publicKey amount. split; [|split; [|split; [|split]]].
  - intros retries maxRetries w.
    exact (kit_attempt_run h publicKey amount retries maxRetries w).
  - intros Haccept Hpending w.
    exact (kit_loop_times_out h Haccept Hpending publicKey amount 3 2 0 w
             eq_refl).
  - reflexivity.
  - reflexivity.
  - intros e He ->. apply He. reflexivity.
Qed.

Lemma pending_faucetAccepts : faucetAccepts pending.
Proof. intros a n w. exists "airdrop-signature". reflexivity. Qed.

Lemma pending_neverConfirms : neverConfirms pending.
Proof. intros sigs w. reflexivity. Qed.

Lemma airdrop_confirmation_poll_times_out_witness :
  faucetAccepts pending /\ neverConfirms pending /\
  result_of (run pending (Kit.airdropWithRetry "payer" 10000000000 3) tt)
    = Rejected (Error "空投确认超时") /\
  length (statusQueries
            (trace_of (run pending
                         (Kit.airdropWithRetry "payer" 10000000000 3) tt)))
    = 90%nat.
Proof.
  split; [exact pending_faucetAccepts|].
  split; [exact pending_neverConfirms|].
  destruct (airdrop_confirmation_poll_times_out unit pending "payer"
              10000000000) as (_ & Hloop & _).
  destruct (Hloop pending_faucetAccepts pending_neverConfirms tt)
    as (Hres & _ & _).
  split; [exact Hres|]. vm_compute. reflexivity.
Defined.

(** ** Probes *)

(** [BigInt] reads back the amount the boundary sends. *)
Lemma BigInt_amountString (t : tokenAmount) :
  BigInt (amountString t) = inr (Z.of_N (amount t)).
Proof.
  unfold amountString.
  assert (Hnil : N.to_uint (amount t) <> Decimal.Nil).
  { destruct (amount t) as [|p]; [discriminate|].
    apply DecimalPos.Unsigned.to_uint_nonnil. }
  pose proof (NilZero.usu _ Hnil) as Husu.
  assert (Hval : Z.of_uint (N.to_uint (amount t)) = Z.of_N (amount t)).
  { rewrite <- (DecimalN.Unsigned.of_to (amount t)) at 2.
    generalize (N.to_uint (amount t)). intros d.
    unfold Z.of_uint, N.of_uint. reflexivity. }
  unfold BigInt.
  destruct (NilZero.string_of_uint (N.to_uint (amount t))) as [|c s] eqn:Hs.
  - cbn in Husu. discriminate.
  - assert (Hc : Ascii.eqb c "+"%char = false /\ Ascii.eqb c "-"%char = false).
    { cbn in Husu. destruct (N.to_uint (amount t)) as [|d|d|d|d|d|d|d|d|d|d];
        try (exfalso; apply Hnil; reflexivity);
        cbn in Hs; injection Hs as <- _; split; reflexivity. }
    destruct Hc as [-> Hminus].
    unfold NilZero.int_of_string. rewrite Hminus, Husu. cbn [option_map].
    unfold Z.of_int. now rewrite Hval.
Qed.

(** C6.  [accountExists] never raises and never exits: it makes the one
    lookup and resolves to a boolean, which is [false] when the boundary
    reports [null], [false] when the lookup is rejected, and [true] exactly
    when the boundary reports a value other than [null]. *)
Theorem accountExists_never_raises :
  forall (W : Type) (h : boundary W) (a : address) (w : W),
    let r := run h (Kit.accountExists a) w in
    exists b : bool,
      result_of r = Resolved b /\
      calls (trace_of r) = [GetAccountInfo a] /\
      ((h (GetAccountInfo a) w).1 = inr JsNull -> b = false) /\
      (forall e, (h (GetAccountInfo a) w).1 = inl e -> b = false) /\
      (b = true <->
       exists v, (h (GetAccountInfo a) w).1 = inr v /\ v <> JsNull).
Proof.
  intros W h a w. cbv zeta. unfold Kit.accountExists.
  rewrite run_try_catch, run_await.
  destruct (h (GetAccountInfo a) w) as [[e|v] w1]; cbn [id fst run].
  - exists false. repeat split; try discriminate; auto.
    intros (v & Hv & _). discriminate.
  - exists (Kit.notNull v). split; [reflexivity|]. split; [reflexivity|].
    split; [intros [= ->]; reflexivity|]. split; [discriminate|].
    split.
    + intros Hb. exists v. split; [reflexivity|]. intros ->. discriminate.
    + intros (v' & [= <-] & Hne). destruct v; [contradiction|reflexivity..].
Qed.

(** C7.  [getTokenBalance] never raises and never exits: it makes the one
    lookup and resolves to a non-negative integer, which is zero when the
    lookup is rejected or the response carries no value, and otherwise the
    amount the boundary reports, read as an integer of arbitrary size. *)
Theorem getTokenBalance_never_raises :
  forall (W : Type) (h : boundary W) (a : address) (w : W),
    let r := run h (Kit.getTokenBalance a) w in
    exists z : Z,
      result_of r = Resolved z /\
      0 <= z /\
      calls (trace_of r) = [GetTokenAccountBalance a] /\
      match (h (GetTokenAccountBalance a) w).1 with
      | inr (Some value) => z = Z.of_N (amount value)
      | inr None => z = 0
      | inl _ => z = 0
      end.
Proof.
  intros W h a w. cbv zeta. unfold Kit.getTokenBalance.
  rewrite run_try_catch, run_await.
  destruct (h (GetTokenAccountBalance a) w) as [[e|[value|]] w1];
    cbn [id fst run].
  - exists 0. repeat split; auto. lia.
  - rewrite BigInt_amountString. cbn [run].
    exists (Z.of_N (amount value)). repeat split; auto. lia.
  - exists 0. repeat split; auto. lia.
Qed.

(** ** Submission *)

(** The run of [sendAndConfirmTransaction], reply by reply. *)
Lemma sendAndConfirmTransaction_run {W : Type} (h : boundary W)
    (ixs : list instruction) (payer : address) (signers : list address)
    (w : W) :
  run h (Kit.sendAndConfirmTransaction ixs payer signers) w =
  let '(r1, w1) := h GetLatestBlockhash w in
  match r1 with
  | inl e => (Rejected e, w1, [existT GetLatestBlockhash r1])
  | inr bh =>
      let m := mkMessage 0 payer bh ixs in
      let '(r2, w2) := h (SignTransaction m) w1 in
      match r2 with
      | inl e =>
          (Rejected e, w2,
           [existT GetLatestBlockhash r1; existT (SignTransaction m) r2])
      | inr tx =>
          let '(r3, w3) := h (SendAndConfirm tx "confirmed") w2 in
          (match r3 with
           | inl e =>
               Rejected
                 (if isSolanaError e SOLANA_ERROR__BLOCK_HEIGHT_EXCEEDED
                  then Kit.blockhashExpired else e)
           | inr _ => Resolved (txSignature tx)
           end, w3,
           [existT GetLatestBlockhash r1; existT (SignTransaction m) r2;
            existT (SendAndConfirm tx "confirmed") r3])
      end
  end.
Proof.
  unfold Kit.sendAndConfirmTransaction. rewrite run_await.
  destruct (h GetLatestBlockhash w) as [[e|bh] w1]; cbn [id]; [reflexivity|].
  cbv zeta. rewrite run_await.
  destruct (h (SignTransaction _) w1) as [[e|tx] w2]; cbn [id];
    [reflexivity|].
  rewrite run_try_catch, run_await.
  destruct (h (SendAndConfirm tx "confirmed") w2) as [[e|[]] w3]; cbn [id run].
  - destruct (isSolanaError e SOLANA_ERROR__BLOCK_HEIGHT_EXCEEDED);
      reflexivity.
  - reflexivity.
Qed.

(** C2 (as stated, refuted).  On a boundary that reports the submission's
    block height as exceeded, [sendAndConfirmTransaction] does not return
    anything, a status least of all: it rejects. *)
Lemma sendAndConfirmTransaction_expired_returns_nothing :
  result_of (run stale
               (Kit.sendAndConfirmTransaction
                  [Transfer "source" "destination" "payer" 1] "payer" [])
               tt)
    = Rejected (Error "Blockhash expired — transaction lifetime exceeded") /\
  ~ (exists s : signature,
        result_of (run stale
                     (Kit.sendAndConfirmTransaction
                        [Transfer "source" "destination" "payer" 1]
                        "payer" []) tt)
          = Resolved s).
Proof.
  split; [reflexivity|]. intros (s & Hs). vm_compute in Hs. discriminate.
Qed.

(** C2 (amended).  When the boundary rejects the submission with the
    block-height-exceeded error, [sendAndConfirmTransaction] raises a new
    error whose message is "Blockhash expired — transaction lifetime
    exceeded", in place of the boundary's; any other error of the
    submission is raised as it is.  It returns a signature only when the
    submission was confirmed, and it never exits the process. *)
Theorem sendAndConfirmTransaction_expiry_raises :
  forall (W : Type) (h : boundary W) (ixs : list instruction)
         (payer : address) (signers : list address) (w : W),
    let r := run h (Kit.sendAndConfirmTransaction ixs payer signers) w in
    (forall e, submitReplies (trace_of r) = [inl e] ->
       isSolanaError e SOLANA_ERROR__BLOCK_HEIGHT_EXCEEDED = true ->
       result_of r = Rejected Kit.blockhashExpired) /\
    (forall e, submitReplies (trace_of r) = [inl e] ->
       isSolanaError e SOLANA_ERROR__BLOCK_HEIGHT_EXCEEDED = false ->
       result_of r = Rejected e) /\
    (forall s, result_of r = Resolved s ->
       submitReplies (trace_of r) = [inr tt]) /\
    (forall c, result_of r <> Exited c) /\
    message Kit.blockhashExpired
      = Some "Blockhash expired — transaction lifetime exceeded".
Proof.
  intros W h ixs payer signers w. cbv zeta.
  rewrite sendAndConfirmTransaction_run.
  destruct (h GetLatestBlockhash w) as [[e1|bh] w1];
    [unfold result_of, trace_of; cbn; repeat split; intros; discriminate|].
  cbv zeta.
  destruct (h (SignTransaction _) w1) as [[e2|tx] w2];
    [unfold result_of, trace_of; cbn; repeat split; intros; discriminate|].
  destruct (h (SendAndConfirm tx "confirmed") w2) as [[e3|[]] w3];
    unfold result_of, trace_of; cbn [fst snd];
    change (submitReplies [existT GetLatestBlockhash (inr bh);
              existT (SignTransaction (mkMessage 0 payer bh ixs)) (inr tx);
              existT (SendAndConfirm tx "confirmed") ?r]) with [r].
  - split; [|split; [|split; [|split]]].
    + intros e [= <-] ->. reflexivity.
    + intros e [= <-] ->. reflexivity.
    + intros s. destruct (isSolanaError e3 _); discriminate.
    + intros c. destruct (isSolanaError e3 _); discriminate.
    + reflexivity.
  - split; [|split; [|split; [|split]]]; try discriminate; reflexivity.
Qed.

Lemma sendAndConfirmTransaction_expiry_raises_witness :
  submitReplies
    (trace_of (run stale
                 (Kit.sendAndConfirmTransaction
                    [Transfer "source" "destination" "payer" 1] "payer" [])
                 tt)) = [inl blockHeightExceeded] /\
  isSolanaError blockHeightExceeded SOLANA_ERROR__BLOCK_HEIGHT_EXCEEDED = true /\
  result_of (run stale
               (Kit.sendAndConfirmTransaction
                  [Transfer "source" "destination" "payer" 1] "payer" [])
               tt) = Rejected Kit.blockhashExpired.
Proof.
  split; [reflexivity|]. split; [reflexivity|].
  apply (sendAndConfirmTransaction_expiry_raises unit stale
           [Transfer "source" "destination" "payer" 1] "payer" [] tt)
    with (e := blockHeightExceeded); reflexivity.
Defined.

(** ** The WebSocket URL of an RPC endpoint *)

Lemma prefix_skip (p s : string) :
  String.prefix p s = true -> s = String.append p (skip (String.length p) s).
Proof.
  revert s. induction p as [|c p IH]; intros s Hp; [reflexivity|].
  destruct s as [|d s]; [discriminate|]. cbn in Hp |- *.
  destruct (Ascii.ascii_dec c d) as [->|Hne]; [|discriminate].
  change (String d s = String d (String.append p (skip (String.length p) s))).
  f_equal. apply IH. exact Hp.
Qed.

Lemma prefix_append (p s : string) :
  String.prefix p (String.append p s) = true.
Proof.
  induction p as [|c p IH]; [now destruct s|].
  change (String.prefix (String c p) (String c (String.append p s)) = true).
  cbn [String.prefix]. destruct (Ascii.ascii_dec c c); [exact IH|contradiction].
Qed.

Lemma skip_append (p s : string) :
  skip (String.length p) (String.append p s) = s.
Proof. induction p as [|c p IH]; [reflexivity|exact IH]. Qed.

Lemma replace_unfold (pattern replacement s : string) :
  replace pattern replacement s =
  if String.prefix pattern s then
    String.append replacement (skip (String.length pattern) s)
  else
    match s with
    | EmptyString => EmptyString
    | String c s' => String c (replace pattern replacement s')
    end.
Proof. destruct s; reflexivity. Qed.

(** Replacing a pattern the string starts with swaps the two. *)
Lemma replace_append (pattern replacement s : string) :
  replace pattern replacement (String.append pattern s)
  = String.append replacement s.
Proof. now rewrite replace_unfold, prefix_append, skip_append. Qed.

Lemma includes_prefix (needle s : string) :
  String.prefix needle s = true -> includes needle s = true.
Proof.
  unfold includes. destruct s as [|c s]; intros Hp.
  - destruct needle; [reflexivity|discriminate].
  - cbn [String.index]. now rewrite Hp.
Qed.

Lemma includes_append (needle q s : string) :
  includes needle s = true -> includes needle (String.append q s) = true.
Proof.
  intros Hs. induction q as [|c q IH]; [exact Hs|].
  change (includes needle (String c (String.append q s)) = true).
  unfold includes in *. cbn [String.index].
  destruct (String.prefix needle (String c (String.append q s)));
    [reflexivity|].
  destruct (String.index 0 needle (String.append q s)); [reflexivity|].
  discriminate.
Qed.

(** X1.  A secure HTTP endpoint becomes the secure WebSocket endpoint of the
    same host, port and path: nothing after the scheme is touched, a local
    port 8899 included. *)
Theorem convertHttpToWebSocketUrl_https :
  forall rest : string,
    Kit.convertHttpToWebSocketUrl (String.append "https://" rest)
    = String.append "wss://" rest.
Proof.
  intros rest. unfold Kit.convertHttpToWebSocketUrl.
  now rewrite prefix_append, replace_append.
Qed.

Lemma convert_http (rest : string) :
  Kit.convertHttpToWebSocketUrl (String.append "http://" rest) =
  String.append "ws://"
    (if includes "localhost:8899" (String.append "http://" rest)
        || includes "127.0.0.1:8899" (String.append "http://" rest)
     then replace ":8899" ":8900" rest
     else rest).
Proof.
  unfold Kit.convertHttpToWebSocketUrl.
  change (String.prefix "https://" (String.append "http://" rest)) with false.
  cbv iota. rewrite prefix_append, replace_append.
  destruct (includes "localhost:8899" (String.append "http://" rest)
            || includes "127.0.0.1:8899" (String.append "http://" rest));
    reflexivity.
Qed.

(** X2.  A plain HTTP endpoint becomes a plain WebSocket endpoint.  When the URL
    mentions [localhost:8899] or [127.0.0.1:8899] anywhere, the first
    [:8899] after the scheme becomes [:8900], wherever that first
    occurrence is; otherwise the rest of the URL is kept as it is.  In
    particular a local validator's RPC URL maps to its WebSocket port. *)
Theorem convertHttpToWebSocketUrl_http :
  forall rest : string,
    let url := String.append "http://" rest in
    Kit.convertHttpToWebSocketUrl url =
      String.append "ws://"
        (if includes "localhost:8899" url || includes "127.0.0.1:8899" url
         then replace ":8899" ":8900" rest
         else rest) /\
    Kit.convertHttpToWebSocketUrl
      (String.append "http://localhost:8899" rest)
      = String.append "ws://localhost:8900" rest /\
    Kit.convertHttpToWebSocketUrl
      (String.append "http://127.0.0.1:8899" rest)
      = String.append "ws://127.0.0.1:8900" rest.
Proof.
  intros rest. cbv zeta. split; [apply convert_http|]. split.
  - change (String.append "http://localhost:8899" rest)
      with (String.append "http://"
              (String.append "localhost" (String.append ":8899" rest))).
    rewrite convert_http.
    rewrite (includes_append "localhost:8899" "http://")
      by (apply includes_prefix,
            (prefix_append "localhost:8899" rest)).
    cbn [orb].
    change (replace ":8899" ":8900"
              (String.append "localhost" (String.append ":8899" rest)))
      with (String.append "localhost"
              (replace ":8899" ":8900" (String.append ":8899" rest))).
    now rewrite replace_append.
  - change (String.append "http://127.0.0.1:8899" rest)
      with (String.append "http://"
              (String.append "127.0.0.1" (String.append ":8899" rest))).
    rewrite convert_http.
    rewrite (includes_append "127.0.0.1:8899" "http://")
      by (apply includes_prefix,
            (prefix_append "127.0.0.1:8899" rest)).
    rewrite orb_true_r.
    change (replace ":8899" ":8900"
              (String.append "127.0.0.1" (String.append ":8899" rest)))
      with (String.append "127.0.0.1"
              (replace ":8899" ":8900" (String.append ":8899" rest))).
    now rewrite replace_append.
Qed.

Lemma convert_wss (rest : string) :
  Kit.convertHttpToWebSocketUrl (String.append "wss://" rest)
  = String.append "wss://" rest.
Proof.
  unfold Kit.convertHttpToWebSocketUrl.
  change (String.prefix "https://" (String.append "wss://" rest)) with false.
  change (String.prefix "http://" (String.append "wss://" rest)) with false.
  cbv iota. now rewrite prefix_append.
Qed.

Lemma convert_ws (rest : string) :
  Kit.convertHttpToWebSocketUrl (String.append "ws://" rest)
  = String.append "ws://" rest.
Proof.
  unfold Kit.convertHttpToWebSocketUrl.
  change (String.prefix "https://" (String.append "ws://" rest)) with false.
  change (String.prefix "http://" (String.append "ws://" rest)) with false.
  cbv iota. now rewrite prefix_append, orb_true_r.
Qed.

Lemma isWebSocketUrl_wss (rest : string) :
  isWebSocketUrl (String.append "wss://" rest) = true.
Proof. unfold isWebSocketUrl. now rewrite prefix_append. Qed.

Lemma isWebSocketUrl_ws (rest : string) :
  isWebSocketUrl (String.append "ws://" rest) = true.
Proof. unfold isWebSocketUrl. now rewrite prefix_append, orb_true_r. Qed.

(** X3.  Whatever the input, the result has a WebSocket scheme; a URL that has
    one already is returned unchanged, so converting twice is converting
    once; and a string with none of the four schemes gets [wss://] put in
    front. *)
Theorem convertHttpToWebSocketUrl_idempotent :
  forall url : string,
    isWebSocketUrl (Kit.convertHttpToWebSocketUrl url) = true /\
    (isWebSocketUrl url = true -> Kit.convertHttpToWebSocketUrl url = url) /\
    Kit.convertHttpToWebSocketUrl (Kit.convertHttpToWebSocketUrl url)
      = Kit.convertHttpToWebSocketUrl url /\
    (String.prefix "https://" url = false ->
     String.prefix "http://" url = false ->
     isWebSocketUrl url = false ->
     Kit.convertHttpToWebSocketUrl url = String.append "wss://" url).
Proof.
  assert (Hfix : forall u, isWebSocketUrl u = true ->
                           Kit.convertHttpToWebSocketUrl u = u).
  { intros u Hu. unfold isWebSocketUrl in Hu.
    apply orb_true_iff in Hu. destruct Hu as [Hu|Hu];
      apply prefix_skip in Hu; revert Hu;
      generalize (skip (String.length "wss://") u),
                 (skip (String.length "ws://") u);
      intros r1 r2 ->; [apply convert_wss|apply convert_ws]. }
  assert (Hws : forall u, isWebSocketUrl (Kit.convertHttpToWebSocketUrl u)
                          = true).
  { intros u.
    destruct (String.prefix "https://" u) eqn:H1.
    - apply prefix_skip in H1. revert H1.
      generalize (skip (String.length "https://") u). intros r ->.
      rewrite convertHttpToWebSocketUrl_https. apply isWebSocketUrl_wss.
    - destruct (String.prefix "http://" u) eqn:H2.
      + apply prefix_skip in H2. revert H2.
        generalize (skip (String.length "http://") u). intros r ->.
        rewrite convert_http. apply isWebSocketUrl_ws.
      + unfold Kit.convertHttpToWebSocketUrl. rewrite H1, H2.
        destruct (String.prefix "wss://" u || String.prefix "ws://" u) eqn:H3.
        * exact H3.
        * apply isWebSocketUrl_wss. }
  intros url. split; [apply Hws|]. split; [apply Hfix|].
  split; [apply Hfix, Hws|].
  intros H1 H2 H3. unfold Kit.convertHttpToWebSocketUrl.
  unfold isWebSocketUrl in H3. rewrite H1, H2, H3. reflexivity.
Qed.

Lemma convertHttpToWebSocketUrl_idempotent_witness :
  isWebSocketUrl "wss://api.devnet.solana.com" = true /\
  Kit.convertHttpToWebSocketUrl "wss://api.devnet.solana.com"
    = "wss://api.devnet.solana.com" /\
  String.prefix "https://" "api.devnet.solana.com" = false /\
  String.prefix "http://" "api.devnet.solana.com" = false /\
  isWebSocketUrl "api.devnet.solana.com" = false /\
  Kit.convertHttpToWebSocketUrl "api.devnet.solana.com"
    = "wss://api.devnet.solana.com".
Proof.
  destruct (convertHttpToWebSocketUrl_idempotent "wss://api.devnet.solana.com")
    as (_ & Hsame & _ & _).
  destruct (convertHttpToWebSocketUrl_idempotent "api.devnet.solana.com")
    as (_ & _ & _ & Hbare).
  split; [reflexivity|]. split; [exact (Hsame eq_refl)|].
  split; [reflexivity|]. split; [reflexivity|]. split; [reflexivity|].
  exact (Hbare eq_refl eq_refl eq_refl).
Defined.

(** ** Reading a script's possible behaviour off its tree *)

Section StaticOne.
Context {A : Type}.

Lemma callsIn_mono (S S' : call -> Prop) (p : prog A) :
  (forall c, S c -> S' c) -> callsIn S p -> callsIn S' p.
Proof.
  intros HS. induction p as [a|e|c|c k IH]; cbn; auto.
  intros [Hc Hk]. split; auto.
Qed.

Lemma endsIn_mono (P Q : outcome A -> Prop) (p : prog A) :
  (forall o, P o -> Q o) -> endsIn P p -> endsIn Q p.
Proof. intros HPQ. induction p as [a|e|c|c k IH]; cbn; auto. Qed.

Lemma costWithin_mono (cost : call -> Z) (n m : Z) (p : prog A) :
  n <= m -> costWithin cost n p -> costWithin cost m p.
Proof.
  revert n m. induction p as [a|e|c|c k IH]; cbn; intros n m Hnm; try lia.
  intros [Hc Hk]. split; [lia|]. intros r.
  apply (IH r (n - cost c)); [lia|apply Hk].
Qed.

Lemma costWithin_nonneg (cost : call -> Z) (n : Z) (p : prog A) :
  (forall c, 0 <= cost c) -> costWithin cost n p -> 0 <= n.
Proof.
  intros Hcost. destruct p as [a|e|c|c k]; cbn; auto.
  intros [Hc _]. specialize (Hcost c). lia.
Qed.

(** Calls that cost nothing fit any budget. *)
Lemma costWithin_free (cost : call -> Z) (n : Z) (p : prog A) :
  0 <= n -> callsIn (fun c => cost c = 0) p -> costWithin cost n p.
Proof.
  intros Hn. induction p as [a|e|c|c k IH]; cbn; auto.
  intros [Hc Hk]. rewrite Hc. split; [lia|]. intros r.
  replace (n - 0) with n by lia. auto.
Qed.

Lemma haltsAfter_quiet (bad : event -> bool) (p : prog A) :
  callsIn (fun c => forall r, bad (existT c r) = false) p ->
  haltsAfter bad p.
Proof.
  induction p as [a|e|c|c k IH]; cbn; auto.
  intros [Hc Hk] r. rewrite Hc. auto.
Qed.

End StaticOne.

Section Static.
Context {A B : Type}.

Lemma callsIn_bind (S : call -> Prop) (p : prog A) (f : A -> prog B) :
  callsIn S p -> (forall a, callsIn S (f a)) -> callsIn S (p ≫= f).
Proof.
  intros Hp Hf. unfold mbind, prog_bind.
  induction p as [a|e|c|c k IH]; cbn in *; auto.
  destruct Hp as [Hc Hk]. split; auto.
Qed.

Lemma callsIn_try_catch (S : call -> Prop) (p : prog A)
    (handler : error -> prog A) :
  callsIn S p -> (forall e, callsIn S (handler e)) ->
  callsIn S (try_catch p handler).
Proof.
  intros Hp Hh. induction p as [a|e|c|c k IH]; cbn in *; auto.
  destruct Hp as [Hc Hk]. split; auto.
Qed.

Lemma endsIn_bind (P : outcome A -> Prop) (Q : outcome B -> Prop)
    (p : prog A) (f : A -> prog B) :
  endsIn P p ->
  (forall a, P (Resolved a) -> endsIn Q (f a)) ->
  (forall e, P (Rejected e) -> Q (Rejected e)) ->
  (forall c, P (Exited c) -> Q (Exited c)) ->
  endsIn Q (p ≫= f).
Proof.
  intros Hp Hf He Hx. unfold mbind, prog_bind.
  induction p as [a|e|c|c k IH]; cbn in *; auto.
Qed.

Lemma endsIn_try_catch (P Q : outcome A -> Prop) (p : prog A)
    (handler : error -> prog A) :
  endsIn P p ->
  (forall e, P (Rejected e) -> endsIn Q (handler e)) ->
  (forall a, P (Resolved a) -> Q (Resolved a)) ->
  (forall c, P (Exited c) -> Q (Exited c)) ->
  endsIn Q (try_catch p handler).
Proof.
  intros Hp Hh Ha Hx. induction p as [a|e|c|c k IH]; cbn in *; auto.
Qed.

(** A script that never returns a value never reaches what is bound
    after it. *)
Lemma callsIn_bind_failed (S : call -> Prop) (p : prog A) (f : A -> prog B) :
  callsIn S p -> endsIn failed p -> callsIn S (p ≫= f).
Proof.
  intros Hp Hf'. unfold mbind, prog_bind.
  induction p as [a|e|c|c k IH]; cbn in *; auto; [contradiction|].
  destruct Hp as [Hc Hk]. split; auto.
Qed.

Lemma endsIn_bind_failed (p : prog A) (f : A -> prog B) :
  endsIn failed p -> endsIn failed (p ≫= f).
Proof.
  intros Hp. apply (endsIn_bind failed failed p f Hp); cbn; auto.
  intros a [].
Qed.

Lemma costWithin_bind (cost : call -> Z) (n m : Z) (p : prog A)
    (f : A -> prog B) :
  0 <= m ->
  costWithin cost n p -> (forall a, costWithin cost m (f a)) ->
  costWithin cost (n + m) (p ≫= f).
Proof.
  intros Hm Hp Hf. unfold mbind, prog_bind. revert n Hp.
  induction p as [a|e|c|c k IH]; cbn; intros n Hp; try lia.
  - apply (costWithin_mono cost m); [lia|apply Hf].
  - destruct Hp as [Hc Hk]. split; [lia|]. intros r.
    replace (n + m - cost c) with (n - cost c + m) by lia.
    apply IH, Hk.
Qed.

Lemma costWithin_try_catch (cost : call -> Z) (n m : Z) (p : prog A)
    (handler : error -> prog A) :
  0 <= m ->
  costWithin cost n p -> (forall e, costWithin cost m (handler e)) ->
  costWithin cost (n + m) (try_catch p handler).
Proof.
  intros Hm Hp Hh. revert n Hp.
  induction p as [a|e|c|c k IH]; cbn; intros n Hp; try lia.
  - apply (costWithin_mono cost m); [lia|apply Hh].
  - destruct Hp as [Hc Hk]. split; [lia|]. intros r.
    replace (n + m - cost c) with (n - cost c + m) by lia.
    apply IH, Hk.
Qed.

Lemma haltsAfter_bind (bad : event -> bool) (p : prog A) (f : A -> prog B) :
  haltsAfter bad p -> (forall a, haltsAfter bad (f a)) ->
  haltsAfter bad (p ≫= f).
Proof.
  intros Hp Hf. induction p as [a|e|c|c k IH]; try exact I.
  - apply Hf.
  - intros r. specialize (Hp r). cbn beta in Hp |- *.
    change (if bad (existT c r)
            then callsIn isConsole (k r ≫= f) /\ endsIn failed (k r ≫= f)
            else haltsAfter bad (k r ≫= f)).
    destruct (bad (existT c r)).
    + destruct Hp as [Hc He]. split.
      * apply callsIn_bind_failed; assumption.
      * apply endsIn_bind_failed; assumption.
    + apply IH, Hp.
Qed.

End Static.

Section StaticCatch.
Context {A : Type}.

(** A handler that only prints and then throws or exits keeps a script
    halting after a bad event. *)
Lemma haltsAfter_try_catch (bad : event -> bool) (p : prog A)
    (handler : error -> prog A) :
  (forall l line, bad (said l line) = false) ->
  haltsAfter bad p ->
  (forall e, callsIn isConsole (handler e) /\ endsIn failed (handler e)) ->
  haltsAfter bad (try_catch p handler).
Proof.
  intros Hbad Hp Hh. induction p as [a|e|c|c k IH]; try exact I.
  - cbn [try_catch]. apply haltsAfter_quiet.
    apply (callsIn_mono isConsole); [|apply Hh].
    intros [] Hc r; try contradiction. destruct r. apply Hbad.
  - intros r. specialize (Hp r). cbn beta in Hp |- *.
    change (if bad (existT c r)
            then callsIn isConsole (try_catch (k r) handler) /\
                 endsIn failed (try_catch (k r) handler)
            else haltsAfter bad (try_catch (k r) handler)).
    destruct (bad (existT c r)).
    + destruct Hp as [Hc He]. split.
      * apply callsIn_try_catch; [assumption|apply Hh].
      * apply (endsIn_try_catch failed failed); auto. intros e _. apply Hh.
    + apply IH, Hp.
Qed.

(** A handler over a body that cannot have a bad event. *)
Lemma haltsAfter_try_catch_quiet (bad : event -> bool) (p : prog A)
    (handler : error -> prog A) :
  callsIn (fun c => forall r, bad (existT c r) = false) p ->
  (forall e, haltsAfter bad (handler e)) ->
  haltsAfter bad (try_catch p handler).
Proof.
  intros Hp Hh. induction p as [a|e|c|c k IH]; try exact I.
  - apply Hh.
  - destruct Hp as [Hc Hk]. intros r. cbn beta.
    change (if bad (existT c r)
            then callsIn isConsole (try_catch (k r) handler) /\
                 endsIn failed (try_catch (k r) handler)
            else haltsAfter bad (try_catch (k r) handler)).
    rewrite Hc. apply IH, Hk.
Qed.

End StaticCatch.

(** *** Soundness: what the tree shows holds of every run *)

Section Sound.
Context {W A : Type} (h : boundary W).

Lemma callsIn_sound (S : call -> Prop) (p : prog A) (w : W) :
  callsIn S p -> Forall S (calls (trace_of (run h p w))).
Proof.
  revert w. induction p as [a|e|c|c k IH]; intros w Hp; cbn [run];
    try (unfold trace_of; cbn; constructor).
  destruct Hp as [Hc Hk]. destruct (h c w) as [r w1].
  specialize (IH r w1 (Hk r)).
  destruct (run h (k r) w1) as [[o w2] t].
  unfold trace_of in *. cbn [snd] in *. rewrite calls_cons.
  constructor; assumption.
Qed.

Lemma endsIn_sound (Q : outcome A -> Prop) (p : prog A) (w : W) :
  endsIn Q p -> Q (result_of (run h p w)).
Proof.
  revert w. induction p as [a|e|c|c k IH]; intros w Hp; cbn [run];
    try exact Hp.
  destruct (h c w) as [r w1]. specialize (IH r w1 (Hp r)).
  destruct (run h (k r) w1) as [[o w2] t]. exact IH.
Qed.

Lemma costWithin_sound (cost : call -> Z) (n : Z) (p : prog A) (w : W) :
  costWithin cost n p -> totalCost cost (trace_of (run h p w)) <= n.
Proof.
  revert n w.
  induction p as [a|e|c|c k IH]; intros n w Hp; cbn [run];
    try (unfold trace_of, totalCost; cbn; exact Hp).
  destruct Hp as [Hc Hk]. destruct (h c w) as [r w1].
  specialize (IH r (n - cost c) w1 (Hk r)).
  destruct (run h (k r) w1) as [[o w2] t].
  unfold trace_of, totalCost in *. cbn [snd] in *. rewrite calls_cons.
  cbn [map fold_right projT1]. lia.
Qed.

Lemma haltsAfter_sound (bad : event -> bool) (p : prog A) (w : W)
    (t1 t2 : list event) (ev : event) :
  haltsAfter bad p ->
  trace_of (run h p w) = t1 ++ ev :: t2 ->
  bad ev = true ->
  Forall isConsole (calls t2) /\ failed (result_of (run h p w)).
Proof.
  revert w t1. induction p as [a|e|c|c k IH]; intros w t1 Hp Ht Hbad;
    cbn [run] in *;
    try (unfold trace_of in Ht; cbn in Ht; destruct t1; discriminate).
  specialize (Hp (h c w).1).
  destruct (h c w) as [r w1]. cbn [fst] in Hp.
  pose proof (callsIn_sound isConsole (k r) w1) as Hcs.
  pose proof (endsIn_sound failed (k r) w1) as Hes.
  specialize (IH r w1).
  destruct (run h (k r) w1) as [[o w2] t].
  unfold trace_of, result_of in *. cbn [fst snd] in *.
  destruct (bad (existT c r)) eqn:Hb.
  - destruct Hp as [Hc He]. specialize (Hcs Hc). split; [|apply Hes, He].
    destruct t1 as [|ev1 t1]; cbn [app] in Ht.
    + injection Ht as _ <-. exact Hcs.
    + injection Ht as _ Ht.
      rewrite Ht, calls_app, calls_cons in Hcs.
      apply Forall_app in Hcs. destruct Hcs as [_ Hcs].
      now inversion Hcs.
  - destruct t1 as [|ev1 t1]; cbn [app] in Ht.
    + injection Ht as Hev _. exfalso.
      enough (false = true) by discriminate.
      etransitivity; [symmetry; exact Hb|]. rewrite <- Hbad.
      f_equal. exact Hev.
    + injection Ht as _ Ht. apply (IH t1 Hp Ht Hbad).
Qed.

End Sound.

(** *** The primitives *)

Section Primitives.
Context {A : Type}.

Lemma callsIn_call (S : call -> Prop) (c : call) (k : reply c -> prog A) :
  S c -> (forall r, callsIn S (k r)) -> callsIn S (Call c k).
Proof. intros Hc Hk. split; assumption. Qed.

Lemma callsIn_await (S : call -> Prop) (c : call)
    (cast : reply c -> result A) :
  S c -> callsIn S (await c cast).
Proof. intros Hc. split; [exact Hc|]. intros r. now destruct (cast r). Qed.

Lemma endsIn_await (Q : outcome A -> Prop) (c : call)
    (cast : reply c -> result A) :
  (forall e, Q (Rejected e)) -> (forall a, Q (Resolved a)) ->
  endsIn Q (await c cast).
Proof. intros He Ha r. cbn. destruct (cast r); cbn; auto. Qed.

Lemma costWithin_await (cost : call -> Z) (c : call)
    (cast : reply c -> result A) :
  costWithin cost (cost c) (await c cast).
Proof.
  split; [lia|]. intros r. destruct (cast r); cbn; lia.
Qed.

Lemma haltsAfter_await (bad : event -> bool) (c : call)
    (cast : reply c -> result A) :
  (forall r, bad (existT c r) = true ->
             exists e, cast r = inl e) ->
  haltsAfter bad (await c cast).
Proof.
  intros Hbad r. cbn beta.
  destruct (bad (existT c r)) eqn:Hb.
  - destruct (Hbad r Hb) as (e & ->). cbn. auto.
  - now destruct (cast r).
Qed.

End Primitives.

Lemma callsIn_console (S : call -> Prop) (l : level) (line : list frag) :
  S (Console l line) -> callsIn S (console l line).
Proof. intros Hc. split; [exact Hc|]. intros r. exact I. Qed.

Lemma callsIn_sleep (S : call -> Prop) (ms : Z) :
  S (SetTimeout ms) -> callsIn S (sleep ms).
Proof. intros Hc. split; [exact Hc|]. intros r. exact I. Qed.

Lemma callsIn_perform (S : call -> Prop) (c : call) :
  S c -> callsIn S (perform c).
Proof. intros Hc. split; [exact Hc|]. intros r. exact I. Qed.

Lemma callsIn_consoleAll (S : call -> Prop) (l : level)
    (lines : list (list frag)) :
  (forall line, S (Console l line)) -> callsIn S (consoleAll l lines).
Proof.
  intros Hc. induction lines as [|line lines IH]; [exact I|].
  cbn [consoleAll]. apply callsIn_bind; [apply callsIn_console, Hc|].
  intros _. exact IH.
Qed.

Lemma costWithin_console (cost : call -> Z) (l : level) (line : list frag) :
  costWithin cost (cost (Console l line)) (console l line).
Proof. split; [lia|]. intros r. cbn. lia. Qed.

Lemma costWithin_sleep (cost : call -> Z) (ms : Z) :
  costWithin cost (cost (SetTimeout ms)) (sleep ms).
Proof. split; [lia|]. intros r. cbn. lia. Qed.

Lemma costWithin_perform (cost : call -> Z) (c : call) :
  costWithin cost (cost c) (perform c).
Proof. split; [lia|]. intros r. cbn. lia. Qed.

Lemma endsIn_console (Q : outcome unit -> Prop) (l : level)
    (line : list frag) :
  Q (Resolved tt) -> endsIn Q (console l line).
Proof. intros HQ []. exact HQ. Qed.

Lemma endsIn_consoleAll (Q : outcome unit -> Prop) (l : level)
    (lines : list (list frag)) :
  Q (Resolved tt) -> endsIn Q (consoleAll l lines).
Proof.
  intros HQ. induction lines as [|line lines IH]; [exact HQ|].
  cbn [consoleAll].
  apply (endsIn_bind (fun o => o = Resolved tt)); try discriminate.
  - apply endsIn_console. reflexivity.
  - intros _ _. exact IH.
Qed.

(** *** Budgets *)

Lemma costWithin_bind_le {A B : Type} (cost : call -> Z) (n m b : Z)
    (p : prog A) (f : A -> prog B) :
  costWithin cost n p -> (forall a, costWithin cost m (f a)) ->
  0 <= m -> n + m <= b ->
  costWithin cost b (p ≫= f).
Proof.
  intros Hp Hf Hm Hb. apply (costWithin_mono cost (n + m)); [exact Hb|].
  apply costWithin_bind; assumption.
Qed.

Lemma costWithin_try_catch_le {A : Type} (cost : call -> Z) (n m b : Z)
    (p : prog A) (handler : error -> prog A) :
  costWithin cost n p -> (forall e, costWithin cost m (handler e)) ->
  0 <= m -> n + m <= b ->
  costWithin cost b (try_catch p handler).
Proof.
  intros Hp Hh Hm Hb. apply (costWithin_mono cost (n + m)); [exact Hb|].
  apply costWithin_try_catch; assumption.
Qed.

Lemma waitTime_pos (retries : nat) : 0 < waitTime retries.
Proof. unfold waitTime. assert (0 < 2 ^ Z.of_nat retries) by (apply Z.pow_pos_nonneg; lia). lia. Qed.

Lemma backoffTotal_nonneg (fuel retries : nat) : 0 <= backoffTotal fuel retries.
Proof.
  revert retries. induction fuel as [|fuel IH]; intros retries; cbn; [lia|].
  specialize (IH (S retries)). pose proof (waitTime_pos (S retries)). lia.
Qed.

(** The backoffs add up to a geometric sum. *)
Lemma backoffTotal_closed (fuel retries : nat) :
  backoffTotal fuel retries =
  1000 * (2 ^ Z.of_nat (retries + fuel + 1) - 2 ^ Z.of_nat (retries + 1)).
Proof.
  revert retries. induction fuel as [|fuel IH]; intros retries.
  - cbn [backoffTotal]. replace (retries + 0 + 1)%nat with (retries + 1)%nat
      by lia. lia.
  - cbn [backoffTotal]. rewrite IH. unfold waitTime.
    replace (S retries + fuel + 1)%nat with (retries + S fuel + 1)%nat by lia.
    replace (S retries + 1)%nat with (S (S retries)) by lia.
    replace (retries + 1)%nat with (S retries) by lia.
    rewrite (Nat2Z.inj_succ (S retries)), Z.pow_succ_r by lia. lia.
Qed.

Section Budgets.
Variable f : tariff.
Hypothesis Hfair : fair f.
Variables (publicKey : address) (amount : Z) (maxRetries : nat).

Lemma kit_poll_budget (s : signature) (n : nat) :
  costWithin (priced f)
    (Z.of_nat n * (perMillisecond f * Kit.pollInterval + perStatusQuery f))
    (Kit.pollConfirmation s n).
Proof.
  destruct Hfair as (Ha & Hq & Hs & Hm).
  assert (Hround : 0 <= perMillisecond f * Kit.pollInterval + perStatusQuery f)
    by (unfold Kit.pollInterval; lia).
  set (R := perMillisecond f * Kit.pollInterval + perStatusQuery f) in *.
  induction n as [|n IH]; [cbn; lia|].
  cbn [Kit.pollConfirmation].
  apply (costWithin_bind_le _ (priced f (SetTimeout Kit.pollInterval))
           (perStatusQuery f + Z.of_nat n * R));
    [apply costWithin_sleep| |lia|cbn [priced]; subst R; lia].
  intros _.
  apply (costWithin_bind_le _ (perStatusQuery f) (Z.of_nat n * R));
    [ |intros [|]; [cbn; lia|exact IH]|lia|lia].
  apply (costWithin_try_catch_le _ (perStatusQuery f) 0);
    [ |intros e; cbn; lia|lia|lia].
  apply (costWithin_bind_le _ (priced f (GetSignatureStatuses [s])) 0);
    [apply costWithin_await|intros status; cbn; lia|lia|cbn [priced]; lia].
Qed.

Lemma kit_attempt_budget (retries : nat) :
  costWithin (priced f) (kitAttemptBudget f)
    (Kit.airdropAttempt publicKey amount retries maxRetries).
Proof.
  destruct Hfair as (Ha & Hq & Hs & Hm). unfold kitAttemptBudget.
  set (P := Z.of_nat Kit.maxPolls *
            (perMillisecond f * Kit.pollInterval + perStatusQuery f)).
  assert (HP : 0 <= P) by (subst P; unfold Kit.pollInterval; lia).
  unfold Kit.airdropAttempt.
  apply (costWithin_bind_le _ 0 (perAirdrop f + P));
    [apply (costWithin_console (priced f))| |lia|lia].
  intros _.
  apply (costWithin_bind_le _ (perAirdrop f) P);
    [apply (costWithin_await (priced f) (RequestAirdrop publicKey amount))
    | |lia|lia].
  intros s.
  apply (costWithin_bind_le _ P 0); [apply kit_poll_budget| |lia|lia].
  intros confirmed.
  apply (costWithin_bind_le _ 0 0); [destruct confirmed; cbn; lia| |lia|lia].
  intros _.
  apply (costWithin_bind_le _ 0 0);
    [apply (costWithin_console (priced f))|intros _; cbn; lia|lia|lia].
Qed.

Lemma raw_attempt_budget (retries : nat) :
  costWithin (priced f) (rawAttemptBudget f)
    (Raw.airdropAttempt publicKey amount retries maxRetries).
Proof.
  destruct Hfair as (Ha & Hq & Hs & Hm). unfold rawAttemptBudget.
  unfold Raw.airdropAttempt.
  apply (costWithin_bind_le _ 0 (perAirdrop f));
    [apply (costWithin_console (priced f))| |lia|lia].
  intros _.
  apply (costWithin_bind_le _ (perAirdrop f) 0);
    [apply (costWithin_await (priced f) (RequestAirdrop publicKey amount))
    | |lia|lia].
  intros s.
  apply (costWithin_bind_le _ 0 0);
    [apply (costWithin_await (priced f) GetLatestBlockhash)| |lia|lia].
  intros bh.
  apply (costWithin_bind_le _ 0 0);
    [apply (costWithin_await (priced f) (ConfirmTransaction s bh))| |lia|lia].
  intros _.
  apply (costWithin_bind_le _ 0 0);
    [apply (costWithin_console (priced f))|intros _; cbn; lia|lia|lia].
Qed.

Lemma loopBudget_nonneg (attempt : Z) (fuel retries : nat) :
  0 <= attempt -> 0 <= loopBudget attempt f fuel retries.
Proof.
  intros Hat. destruct Hfair as (Ha & Hq & Hs & Hm). unfold loopBudget.
  pose proof (backoffTotal_nonneg fuel retries). nia.
Qed.

Lemma loopBudget_succ (attempt : Z) (fuel retries : nat) :
  loopBudget attempt f (S fuel) retries =
  attempt + (perMillisecond f * waitTime (S retries)
             + loopBudget attempt f fuel (S retries)).
Proof. unfold loopBudget. cbn [backoffTotal]. lia. Qed.

(** A loop of [fuel] attempts costs at most [fuel] attempts and the
    backoff after each of them. *)
Lemma kit_loop_budget (fuel retries : nat) :
  costWithin (priced f) (loopBudget (kitAttemptBudget f) f fuel retries)
    (Kit.airdropLoop publicKey amount maxRetries fuel retries).
Proof.
  assert (Hat : 0 <= kitAttemptBudget f).
  { destruct Hfair as (Ha & Hq & Hs & Hm).
    unfold kitAttemptBudget, Kit.pollInterval. lia. }
  revert retries. induction fuel as [|fuel IH]; intros retries.
  - cbn. unfold loopBudget. cbn. lia.
  - rewrite loopBudget_succ. cbn [Kit.airdropLoop].
    pose proof (loopBudget_nonneg _ fuel (S retries) Hat) as Hrest.
    pose proof (waitTime_pos (S retries)) as Hw.
    destruct Hfair as (Ha & Hq & Hs & Hm).
    apply costWithin_try_catch; [nia| |].
    + apply (costWithin_bind_le _ (kitAttemptBudget f) 0);
        [apply kit_attempt_budget|intros s; cbn; lia|lia|lia].
    + intros e. cbv zeta. destruct (Kit.isRateLimited e).
      * apply (costWithin_bind_le _ 0 (perMillisecond f * waitTime (S retries)
                 + loopBudget (kitAttemptBudget f) f fuel (S retries)));
          [apply (costWithin_console (priced f))| |nia|lia].
        intros _.
        apply (costWithin_bind_le _ (priced f (SetTimeout (waitTime (S retries))))
                 (loopBudget (kitAttemptBudget f) f fuel (S retries)));
          [apply costWithin_sleep|intros _; apply IH|lia|cbn [priced]; lia].
      * destruct (maxRetries <=? S retries)%nat.
        -- apply (costWithin_bind_le _ 0 0);
             [apply (costWithin_console (priced f))|intros _; cbn; lia|lia
             |nia].
        -- apply (costWithin_bind_le _ 0
                    (loopBudget (kitAttemptBudget f) f fuel (S retries)));
             [apply (costWithin_console (priced f))|intros _; apply IH|lia
             |nia].
Qed.

Lemma raw_loop_budget (fuel retries : nat) :
  costWithin (priced f) (loopBudget (rawAttemptBudget f) f fuel retries)
    (Raw.airdropLoop publicKey amount maxRetries fuel retries).
Proof.
  assert (Hat : 0 <= rawAttemptBudget f).
  { destruct Hfair as (Ha & Hq & Hs & Hm). unfold rawAttemptBudget. lia. }
  revert retries. induction fuel as [|fuel IH]; intros retries.
  - cbn. unfold loopBudget. cbn. lia.
  - rewrite loopBudget_succ. cbn [Raw.airdropLoop].
    pose proof (loopBudget_nonneg _ fuel (S retries) Hat) as Hrest.
    pose proof (waitTime_pos (S retries)) as Hw.
    destruct Hfair as (Ha & Hq & Hs & Hm).
    apply costWithin_try_catch; [nia| |].
    + apply (costWithin_bind_le _ (rawAttemptBudget f) 0);
        [apply raw_attempt_budget|intros s; cbn; lia|lia|lia].
    + intros e. cbv zeta. destruct (message e) as [m|]; [|cbn; nia].
      destruct (rateLimited m).
      * apply (costWithin_bind_le _ 0 (perMillisecond f * waitTime (S retries)
                 + loopBudget (rawAttemptBudget f) f fuel (S retries)));
          [apply (costWithin_console (priced f))| |nia|lia].
        intros _.
        apply (costWithin_bind_le _ (priced f (SetTimeout (waitTime (S retries))))
                 (loopBudget (rawAttemptBudget f) f fuel (S retries)));
          [apply costWithin_sleep|intros _; apply IH|lia|cbn [priced]; lia].
      * destruct (maxRetries <=? S retries)%nat.
        -- apply (costWithin_bind_le _ 0 0);
             [apply (costWithin_console (priced f))|intros _; cbn; lia|lia
             |nia].
        -- apply (costWithin_bind_le _ 0
                    (loopBudget (rawAttemptBudget f) f fuel (S retries)));
             [apply (costWithin_console (priced f))|intros _; apply IH|lia
             |nia].
Qed.

End Budgets.

(** Costs, read as counts and as time. *)
Lemma totalCost_airdrops (t : list event) :
  totalCost airdropCost t = Z.of_nat (length (airdrops t)).
Proof.
  unfold totalCost, airdrops. induction (calls t) as [|c cs IH]; [reflexivity|].
  cbn [map fold_right]. rewrite IH.
  destruct c; cbn [airdropCost priced perAirdrop perStatusQuery perSubmission
                   perMillisecond]; try (cbn; lia).
Qed.

Lemma totalCost_statusQueries (t : list event) :
  totalCost statusQueryCost t = Z.of_nat (length (statusQueries t)).
Proof.
  unfold totalCost, statusQueries.
  induction (calls t) as [|c cs IH]; [reflexivity|].
  cbn [map fold_right]. rewrite IH. destruct c; cbn; lia.
Qed.

Lemma totalCost_submissions (t : list event) :
  totalCost submissionCost t = Z.of_nat (length (submissions t)).
Proof.
  unfold totalCost, submissions.
  induction (calls t) as [|c cs IH]; [reflexivity|].
  cbn [map fold_right]. rewrite IH. destruct c; cbn; lia.
Qed.

Lemma totalCost_timeSlept (t : list event) :
  totalCost timerCost t = timeSlept t.
Proof.
  unfold totalCost, timeSlept, timeouts.
  induction (calls t) as [|c cs IH]; [reflexivity|].
  cbn [map fold_right]. rewrite IH. destruct c; cbn; lia.
Qed.

(** ** Bounded retrying *)

Lemma fair_unit_prices (a q s m : Z) :
  0 <= a -> 0 <= q -> 0 <= s -> 0 <= m -> fair (mkTariff a q s m).
Proof. intros. repeat split; assumption. Qed.

(** X4.  Whatever the boundary answers, [airdropWithRetry] allowed [n] attempts
    asks the faucet at most [n] times and sleeps at most
    [1000 * (2^(n+1) - 2)] ms backing off; the Kit variant, which polls for
    confirmation itself, makes at most [30 * n] status queries and sleeps
    at most [30000 * n] ms more. *)
Theorem airdropWithRetry_bounded :
  forall (W : Type) (h : boundary W) (publicKey : address) (amount : Z)
         (n : nat) (w : W),
    (let t := trace_of (run h (Raw.airdropWithRetry publicKey amount n) w) in
     (length (airdrops t) <= n)%nat /\
     timeSlept t <= 1000 * (2 ^ (Z.of_nat n + 1) - 2)) /\
    (let t := trace_of (run h (Kit.airdropWithRetry publicKey amount n) w) in
     (length (airdrops t) <= n)%nat /\
     (length (statusQueries t) <= 30 * n)%nat /\
     timeSlept t <= 1000 * (2 ^ (Z.of_nat n + 1) - 2) + 30000 * Z.of_nat n).
Proof.
  intros W h publicKey amount n w.
  assert (Hclosed : backoffTotal n 0 = 1000 * (2 ^ (Z.of_nat n + 1) - 2)).
  { rewrite backoffTotal_closed. cbn [Nat.add].
    replace (Z.of_nat (n + 1)) with (Z.of_nat n + 1) by lia.
    change (2 ^ Z.of_nat 1) with 2. reflexivity. }
  split; cbv zeta.
  - split.
    + pose proof (costWithin_sound h airdropCost _ _ w
                    (raw_loop_budget (mkTariff 1 0 0 0)
                       ltac:(apply fair_unit_prices; lia)
                       publicKey amount n n 0)) as Hb.
      fold (Raw.airdropWithRetry publicKey amount n) in Hb.
      rewrite totalCost_airdrops in Hb.
      unfold loopBudget, rawAttemptBudget in Hb. cbn in Hb. lia.
    + pose proof (costWithin_sound h timerCost _ _ w
                    (raw_loop_budget (mkTariff 0 0 0 1)
                       ltac:(apply fair_unit_prices; lia)
                       publicKey amount n n 0)) as Hb.
      fold (Raw.airdropWithRetry publicKey amount n) in Hb.
      rewrite totalCost_timeSlept in Hb.
      unfold loopBudget, rawAttemptBudget in Hb.
      cbn [perAirdrop perMillisecond] in Hb. lia.
  - split; [|split].
    + pose proof (costWithin_sound h airdropCost _ _ w
                    (kit_loop_budget (mkTariff 1 0 0 0)
                       ltac:(apply fair_unit_prices; lia)
                       publicKey amount n n 0)) as Hb.
      fold (Kit.airdropWithRetry publicKey amount n) in Hb.
      rewrite totalCost_airdrops in Hb.
      unfold loopBudget, kitAttemptBudget in Hb.
      cbn [perAirdrop perMillisecond perStatusQuery] in Hb. lia.
    + pose proof (costWithin_sound h statusQueryCost _ _ w
                    (kit_loop_budget (mkTariff 0 1 0 0)
                       ltac:(apply fair_unit_prices; lia)
                       publicKey amount n n 0)) as Hb.
      fold (Kit.airdropWithRetry publicKey amount n) in Hb.
      rewrite totalCost_statusQueries in Hb.
      unfold loopBudget, kitAttemptBudget, Kit.maxPolls in Hb.
      cbn [perAirdrop perMillisecond perStatusQuery] in Hb. lia.
    + pose proof (costWithin_sound h timerCost _ _ w
                    (kit_loop_budget (mkTariff 0 0 0 1)
                       ltac:(apply fair_unit_prices; lia)
                       publicKey amount n n 0)) as Hb.
      fold (Kit.airdropWithRetry publicKey amount n) in Hb.
      rewrite totalCost_timeSlept in Hb.
      unfold loopBudget, kitAttemptBudget, Kit.maxPolls, Kit.pollInterval
        in Hb.
      cbn [perAirdrop perMillisecond perStatusQuery] in Hb. lia.
Qed.

(** ** How the retrying airdrop can end *)

Lemma endsIn_console_bind {A : Type} (Q : outcome A -> Prop) (l : level)
    (line : list frag) (k : prog A) :
  endsIn Q k -> endsIn Q (console l line;; k).
Proof. intros Hk []. exact Hk. Qed.

Lemma endsIn_sleep_bind {A : Type} (Q : outcome A -> Prop) (ms : Z)
    (k : prog A) :
  endsIn Q k -> endsIn Q (sleep ms;; k).
Proof. intros Hk []. exact Hk. Qed.

Lemma endsIn_await_bind {X A : Type} (Q : outcome A -> Prop) (c : call)
    (cast : reply c -> result X) (k : X -> prog A) :
  (forall e, Q (Rejected e)) -> (forall x, endsIn Q (k x)) ->
  endsIn Q (await c cast ≫= k).
Proof.
  intros He Hk r. change (endsIn Q (match cast r with
                                    | inl e => Throw e
                                    | inr x => Ret x
                                    end ≫= k)).
  destruct (cast r) as [e|x]; [apply He|apply Hk].
Qed.

Lemma kit_poll_resolves (s : signature) (n : nat) :
  endsIn (fun o => exists b, o = Resolved b) (Kit.pollConfirmation s n).
Proof.
  induction n as [|n IH]; [exists false; reflexivity|].
  cbn [Kit.pollConfirmation]. apply endsIn_sleep_bind.
  intros [e|value]; cbn.
  - exact IH.
  - destruct (Kit.isConfirmed value); [exists true; reflexivity|exact IH].
Qed.

Lemma kit_attempt_noExit (publicKey : address) (amount : Z)
    (retries maxRetries : nat) :
  endsIn noExit (Kit.airdropAttempt publicKey amount retries maxRetries).
Proof.
  unfold Kit.airdropAttempt. apply endsIn_console_bind.
  apply endsIn_await_bind; [intros e; exact I|]. intros s.
  apply (endsIn_bind (fun o => exists b, o = Resolved b));
    [apply kit_poll_resolves| |intros e (b & Hb); discriminate
    |intros c (b & Hb); discriminate].
  intros [|] _.
  - change (endsIn noExit (console Log successLine;; Ret s)).
    apply endsIn_console_bind. exact I.
  - exact I.
Qed.

Lemma raw_attempt_noExit (publicKey : address) (amount : Z)
    (retries maxRetries : nat) :
  endsIn noExit (Raw.airdropAttempt publicKey amount retries maxRetries).
Proof.
  unfold Raw.airdropAttempt. apply endsIn_console_bind.
  apply endsIn_await_bind; [intros e; exact I|]. intros s.
  apply endsIn_await_bind; [intros e; exact I|]. intros bh.
  apply endsIn_await_bind; [intros e; exact I|]. intros _.
  apply endsIn_console_bind. exact I.
Qed.

Lemma kit_loop_notThrottled (publicKey : address) (amount : Z)
    (maxRetries fuel retries : nat) :
  endsIn notThrottled
    (Kit.airdropLoop publicKey amount maxRetries fuel retries).
Proof.
  revert retries. induction fuel as [|fuel IH]; intros retries; [exact I|].
  cbn [Kit.airdropLoop].
  apply (endsIn_try_catch noExit).
  - apply (endsIn_bind noExit);
      [apply kit_attempt_noExit|intros s _; exact I|auto|auto].
  - intros e _. cbv zeta. destruct (Kit.isRateLimited e) eqn:He.
    + apply endsIn_console_bind, endsIn_sleep_bind, IH.
    + destruct (maxRetries <=? S retries)%nat.
      * apply endsIn_console_bind. exact He.
      * apply endsIn_console_bind, IH.
  - intros a _. exact I.
  - intros c [].
Qed.

Lemma raw_loop_notThrottled (publicKey : address) (amount : Z)
    (maxRetries fuel retries : nat) :
  endsIn notThrottled
    (Raw.airdropLoop publicKey amount maxRetries fuel retries).
Proof.
  revert retries. induction fuel as [|fuel IH]; intros retries; [exact I|].
  cbn [Raw.airdropLoop].
  apply (endsIn_try_catch noExit).
  - apply (endsIn_bind noExit);
      [apply raw_attempt_noExit|intros s _; exact I|auto|auto].
  - intros e _. cbv zeta. destruct (message e) as [m|] eqn:Hm;
      [|reflexivity].
    destruct (rateLimited m) eqn:He.
    + apply endsIn_console_bind, endsIn_sleep_bind, IH.
    + destruct (maxRetries <=? S retries)%nat.
      * apply endsIn_console_bind. cbn. unfold Kit.isRateLimited.
        now rewrite Hm.
      * apply endsIn_console_bind, IH.
  - intros a _. exact I.
  - intros c [].
Qed.

(** X5.  Whatever the boundary answers and however many attempts are allowed,
    [airdropWithRetry] never ends the process, and an error it raises is
    never one it classifies as rate limiting: a rate-limited failure is
    only ever slept on.  With no attempt allowed it makes no call and
    resolves to [undefined]. *)
Theorem airdropWithRetry_never_raises_rate_limit :
  forall (W : Type) (h : boundary W) (publicKey : address) (amount : Z)
         (n : nat) (w : W),
    notThrottled (result_of (run h (Raw.airdropWithRetry publicKey amount n) w))
    /\
    notThrottled (result_of (run h (Kit.airdropWithRetry publicKey amount n) w))
    /\
    run h (Raw.airdropWithRetry publicKey amount 0) w = (Resolved None, w, [])
    /\
    run h (Kit.airdropWithRetry publicKey amount 0) w = (Resolved None, w, []).
Proof.
  intros W h publicKey amount n w. split; [|split; [|split]].
  - apply endsIn_sound, raw_loop_notThrottled.
  - apply endsIn_sound, kit_loop_notThrottled.
  - reflexivity.
  - reflexivity.
Qed.

(** ** Walking a script *)

Lemma costWithin_bind_nn {A B : Type} (cost : call -> Z) (n m : Z)
    (p : prog A) (f : A -> prog B) :
  costWithin cost n p -> (forall a, costWithin cost m (f a)) -> 0 <= m ->
  costWithin cost (n + m) (p ≫= f).
Proof. intros Hp Hf Hm. apply costWithin_bind; assumption. Qed.

Lemma costWithin_try_catch_nn {A : Type} (cost : call -> Z) (n m : Z)
    (p : prog A) (handler : error -> prog A) :
  costWithin cost n p -> (forall e, costWithin cost m (handler e)) ->
  0 <= m ->
  costWithin cost (n + m) (try_catch p handler).
Proof. intros Hp Hh Hm. apply costWithin_try_catch; assumption. Qed.

Lemma costWithin_if {A : Type} (cost : call -> Z) (n m : Z) (b : bool)
    (p q : prog A) :
  costWithin cost n p -> costWithin cost m q ->
  costWithin cost (Z.max n m) (if b then p else q).
Proof.
  intros Hp Hq. destruct b;
    [apply (costWithin_mono cost n)|apply (costWithin_mono cost m)];
    auto; lia.
Qed.

Lemma costWithin_priced_await {A : Type} (f : tariff) (b : Z) (c : call)
    (cast : reply c -> result A) :
  priced f c = b -> costWithin (priced f) b (await c cast).
Proof. intros <-. apply costWithin_await. Qed.

Lemma costWithin_priced_perform (f : tariff) (b : Z) (c : call) :
  priced f c = b -> costWithin (priced f) b (perform c).
Proof. intros <-. apply costWithin_perform. Qed.

Lemma costWithin_priced_console (f : tariff) (l : level) (line : list frag) :
  costWithin (priced f) 0 (console l line).
Proof. apply (costWithin_console (priced f)). Qed.

Lemma costWithin_priced_consoleAll (f : tariff) (l : level)
    (lines : list (list frag)) :
  costWithin (priced f) 0 (consoleAll l lines).
Proof.
  induction lines as [|line lines IH]; [cbn; lia|]. cbn [consoleAll].
  apply (costWithin_bind_le _ 0 0);
    [apply costWithin_priced_console|intros _; exact IH|lia|lia].
Qed.

Lemma costWithin_leaf_ret {A : Type} (cost : call -> Z) (a : A) :
  costWithin cost 0 (Ret a).
Proof. cbn. lia. Qed.

Lemma costWithin_leaf_throw {A : Type} (cost : call -> Z) (e : error) :
  costWithin cost 0 (@Throw A e).
Proof. cbn. lia. Qed.

Lemma costWithin_leaf_exit {A : Type} (cost : call -> Z) (c : Z) :
  costWithin cost 0 (@Exit A c).
Proof. cbn. lia. Qed.

Lemma costWithin_mono_r {A : Type} (cost : call -> Z) (n m : Z) (p : prog A) :
  costWithin cost n p -> n <= m -> costWithin cost m p.
Proof. intros Hp Hnm. exact (costWithin_mono cost n m p Hnm Hp). Qed.

(** One step of a budget derivation; [known] closes the calls of script
    functions that have a budget lemma. *)
Ltac cost_walk known :=
  cbv zeta;
  lazymatch goal with
  | |- costWithin _ _ (_ ≫= _) =>
      eapply costWithin_bind_nn;
      [cost_walk known|intros ?; cost_walk known|lia]
  | |- costWithin _ _ (try_catch _ _) =>
      eapply costWithin_try_catch_nn;
      [cost_walk known|intros ?; cost_walk known|lia]
  | |- costWithin _ _ (if _ then _ else _) =>
      eapply costWithin_if; [cost_walk known|cost_walk known]
  | |- costWithin _ _ (console _ _) => apply costWithin_priced_console
  | |- costWithin _ _ (consoleAll _ _) => apply costWithin_priced_consoleAll
  | |- costWithin _ _ (await _ _) =>
      eapply costWithin_priced_await; cbn [priced]; reflexivity
  | |- costWithin _ _ (perform _) =>
      eapply costWithin_priced_perform; cbn [priced]; reflexivity
  | |- costWithin _ _ (Ret _) => apply costWithin_leaf_ret
  | |- costWithin _ _ (Throw _) => apply costWithin_leaf_throw
  | |- costWithin _ _ (Exit _) => apply costWithin_leaf_exit
  | |- _ => known
  end.

(** The same walk for the calls a script can make; what is left are the
    calls themselves, to be checked against [S]. *)
Ltac calls_walk known :=
  cbv zeta;
  lazymatch goal with
  | |- callsIn _ (_ ≫= _) =>
      apply callsIn_bind; [calls_walk known|intros ?; calls_walk known]
  | |- callsIn _ (try_catch _ _) =>
      apply callsIn_try_catch; [calls_walk known|intros ?; calls_walk known]
  | |- callsIn _ (if ?b then _ else _) => destruct b; calls_walk known
  | |- callsIn _ (console _ _) => apply callsIn_console
  | |- callsIn _ (consoleAll _ _) => apply callsIn_consoleAll; intros ?
  | |- callsIn _ (sleep _) => apply callsIn_sleep
  | |- callsIn _ (await _ _) => apply callsIn_await
  | |- callsIn _ (perform _) => apply callsIn_perform
  | |- callsIn _ (Ret _) => exact I
  | |- callsIn _ (Throw _) => exact I
  | |- callsIn _ (Exit _) => exact I
  | |- _ => known
  end.

Lemma lenient_noSubmit : lenient noSubmit.
Proof. intros c. destruct c; try exact I; intros r; reflexivity. Qed.

Lemma lenient_airdropsOnly (a : address) (n : Z) :
  lenient (airdropsOnly a n).
Proof. intros c. destruct c; exact I. Qed.

Lemma noSubmit_airdrop (a : address) (n : Z) : noSubmit (RequestAirdrop a n).
Proof. intros r. reflexivity. Qed.

Lemma endsIn_bind_exit {A B : Type} (code : Z) (p : prog A)
    (f : A -> prog B) :
  endsIn (exitsOnlyWith code) p ->
  (forall a, endsIn (exitsOnlyWith code) (f a)) ->
  endsIn (exitsOnlyWith code) (p ≫= f).
Proof.
  intros Hp Hf. apply (endsIn_bind (exitsOnlyWith code)); auto.
Qed.

Lemma endsIn_try_catch_exit {A : Type} (code : Z) (p : prog A)
    (handler : error -> prog A) :
  endsIn (exitsOnlyWith code) p ->
  (forall e, endsIn (exitsOnlyWith code) (handler e)) ->
  endsIn (exitsOnlyWith code) (try_catch p handler).
Proof.
  intros Hp Hh. apply (endsIn_try_catch (exitsOnlyWith code)); auto.
Qed.

Lemma endsIn_await_exit {A : Type} (code : Z) (c : call)
    (cast : reply c -> result A) :
  endsIn (exitsOnlyWith code) (await c cast).
Proof. apply endsIn_await; intros; exact I. Qed.

Lemma endsIn_noExit_exit {A : Type} (code : Z) (p : prog A) :
  endsIn noExit p -> endsIn (exitsOnlyWith code) p.
Proof. apply endsIn_mono. intros [a|e|c]; cbn; tauto. Qed.

Ltac ends_walk known :=
  cbv zeta;
  lazymatch goal with
  | |- endsIn (exitsOnlyWith _) (_ ≫= _) =>
      apply endsIn_bind_exit; [ends_walk known|intros ?; ends_walk known]
  | |- endsIn (exitsOnlyWith _) (try_catch _ _) =>
      apply endsIn_try_catch_exit;
      [ends_walk known|intros ?; ends_walk known]
  | |- endsIn (exitsOnlyWith _) (if ?b then _ else _) =>
      destruct b; ends_walk known
  | |- endsIn (exitsOnlyWith _) (console _ _) => intros ?; exact I
  | |- endsIn (exitsOnlyWith _) (consoleAll _ _) =>
      apply endsIn_consoleAll; exact I
  | |- endsIn (exitsOnlyWith _) (await _ _) => apply endsIn_await_exit
  | |- endsIn (exitsOnlyWith _) (perform _) => intros ?; exact I
  | |- endsIn (exitsOnlyWith _) (Ret _) => exact I
  | |- endsIn (exitsOnlyWith _) (Throw _) => exact I
  | |- endsIn (exitsOnlyWith _) (Exit _) => reflexivity
  | |- _ => known
  end.

Ltac halts_walk known :=
  cbv zeta;
  lazymatch goal with
  | |- haltsAfter _ (_ ≫= _) =>
      apply haltsAfter_bind; [halts_walk known|intros ?; halts_walk known]
  | |- haltsAfter _ (if ?b then _ else _) => destruct b; halts_walk known
  | |- haltsAfter _ (console _ _) => intros []; exact I
  | |- haltsAfter _ (await _ _) =>
      first
        [ apply haltsAfter_quiet, callsIn_await; intros ?; reflexivity
        | apply haltsAfter_await; intros [?|?] ?;
          [eexists; reflexivity|discriminate] ]
  | |- haltsAfter _ (try_catch _ _) =>
      first
        [ solve [ apply haltsAfter_quiet; calls_walk idtac;
                  intros ?; reflexivity ]
        | apply haltsAfter_try_catch;
          [ intros ? ?; reflexivity
          | halts_walk known
          | intros ?; split;
            [ calls_walk idtac; exact I
            | repeat first
                [ apply endsIn_console_bind
                | match goal with
                  | |- endsIn _ (if ?b then _ else _) => destruct b
                  end
                | exact I ] ] ] ]
  | |- haltsAfter _ (perform GenerateKeyPair) => intros ?; exact I
  | |- haltsAfter _ (Ret _) => exact I
  | |- haltsAfter _ (Throw _) => exact I
  | |- haltsAfter _ (Exit _) => exact I
  | |- _ => known
  end.

(** *** The parts of the Kit script *)

Section KitParts.
Variable S : call -> Prop.
Hypothesis HS : lenient S.

Lemma kit_poll_calls (s : signature) (n : nat) :
  callsIn S (Kit.pollConfirmation s n).
Proof.
  induction n as [|n IH]; [exact I|]. cbn [Kit.pollConfirmation].
  calls_walk idtac; try exact (HS (SetTimeout _));
    try exact (HS (GetSignatureStatuses _)); exact IH.
Qed.

Lemma kit_attempt_calls (publicKey : address) (amount : Z)
    (retries maxRetries : nat) :
  S (RequestAirdrop publicKey amount) ->
  callsIn S (Kit.airdropAttempt publicKey amount retries maxRetries).
Proof.
  intros Hreq. unfold Kit.airdropAttempt.
  calls_walk ltac:(first [apply kit_poll_calls|idtac]);
    try exact (HS (Console _ _)); exact Hreq.
Qed.

Lemma kit_loop_calls (publicKey : address) (amount : Z)
    (maxRetries fuel retries : nat) :
  S (RequestAirdrop publicKey amount) ->
  callsIn S (Kit.airdropLoop publicKey amount maxRetries fuel retries).
Proof.
  intros Hreq. revert retries.
  induction fuel as [|fuel IH]; intros retries; [exact I|].
  cbn [Kit.airdropLoop]. apply callsIn_try_catch.
  - apply callsIn_bind; [apply kit_attempt_calls, Hreq|intros s; exact I].
  - intros e. cbv zeta.
    calls_walk ltac:(first [apply IH|idtac]);
      try exact (HS (Console _ _)); exact (HS (SetTimeout _)).
Qed.

Lemma kit_getTokenBalance_calls (a : address) :
  callsIn S (Kit.getTokenBalance a).
Proof.
  split; [exact (HS (GetTokenAccountBalance a))|].
  intros [e|[value|]]; cbn; try exact I.
  destruct (BigInt (amountString value)); exact I.
Qed.

Lemma kit_accountExists_calls (a : address) :
  callsIn S (Kit.accountExists a).
Proof.
  split; [exact (HS (GetAccountInfo a))|]. intros [e|v]; exact I.
Qed.

Lemma kit_fundPayer_calls (payer : address) :
  S (RequestAirdrop payer (10 * 1000000000)) ->
  callsIn S (Kit.fundPayer payer).
Proof.
  intros Hreq. unfold Kit.fundPayer, Kit.airdropWithRetry.
  calls_walk ltac:(first [apply kit_loop_calls; exact Hreq|idtac]);
    try exact (HS (Console _ _)); exact (HS (GetBalance _)).
Qed.

End KitParts.

Section KitScript.
Variables (RPC_ENDPOINT PAYER_KEYPAIR_PATH : string).
Variable findAssociatedTokenPda : address -> address -> address.

(** **** Submissions are made once and their failure is final *)

Lemma kit_send_halts (ixs : list instruction) (payer : address)
    (signers : list address) :
  haltsAfter rejectedSubmission
    (Kit.sendAndConfirmTransaction ixs payer signers).
Proof. unfold Kit.sendAndConfirmTransaction. halts_walk idtac. Qed.

Lemma kit_quiet_halts {A : Type} (p : prog A) :
  callsIn noSubmit p -> haltsAfter rejectedSubmission p.
Proof. apply haltsAfter_quiet. Qed.

Ltac kit_halts :=
  first
    [ apply kit_send_halts
    | apply kit_quiet_halts, kit_getTokenBalance_calls, lenient_noSubmit
    | apply kit_quiet_halts, kit_accountExists_calls, lenient_noSubmit
    | apply kit_quiet_halts, kit_fundPayer_calls;
      [apply lenient_noSubmit|apply noSubmit_airdrop]
    | idtac ].

Lemma kit_createMint_halts (payer : address) :
  haltsAfter rejectedSubmission (Kit.createMint payer).
Proof. unfold Kit.createMint. halts_walk kit_halts. Qed.

Lemma kit_ensureTokenAccount_halts (created failed present : string)
    (payer owner mint : address) :
  haltsAfter rejectedSubmission
    (Kit.ensureTokenAccount findAssociatedTokenPda created failed present
       payer owner mint).
Proof. unfold Kit.ensureTokenAccount. halts_walk kit_halts. Qed.

Lemma kit_main_halts :
  haltsAfter rejectedSubmission
    (Kit.main RPC_ENDPOINT PAYER_KEYPAIR_PATH findAssociatedTokenPda).
Proof.
  unfold Kit.main, Kit.provision, Kit.loadKeypairSigner.
  halts_walk ltac:(first [apply kit_createMint_halts
                         |apply kit_ensureTokenAccount_halts
                         |kit_halts]).
Qed.

(** **** The only exit code before the end of [main] is 1 *)

Lemma kit_send_ends (ixs : list instruction) (payer : address)
    (signers : list address) :
  endsIn (exitsOnlyWith 1) (Kit.sendAndConfirmTransaction ixs payer signers).
Proof. unfold Kit.sendAndConfirmTransaction. ends_walk idtac. Qed.

Lemma kit_getTokenBalance_ends (a : address) :
  endsIn (exitsOnlyWith 1) (Kit.getTokenBalance a).
Proof.
  intros [e|[value|]]; cbn; try exact I.
  destruct (BigInt (amountString value)); exact I.
Qed.

Lemma kit_accountExists_ends (a : address) :
  endsIn (exitsOnlyWith 1) (Kit.accountExists a).
Proof. intros [e|v]; exact I. Qed.

Lemma kit_airdropWithRetry_ends (publicKey : address) (amount : Z)
    (n : nat) :
  endsIn (exitsOnlyWith 1) (Kit.airdropWithRetry publicKey amount n).
Proof.
  apply endsIn_noExit_exit.
  apply (endsIn_mono notThrottled); [|apply kit_loop_notThrottled].
  intros [a|e|c]; cbn; tauto.
Qed.

Ltac kit_ends :=
  first
    [ apply kit_send_ends
    | apply kit_getTokenBalance_ends
    | apply kit_accountExists_ends
    | apply kit_airdropWithRetry_ends
    | idtac ].

Lemma kit_main_ends :
  endsIn (exitsOnlyWith 1)
    (Kit.main RPC_ENDPOINT PAYER_KEYPAIR_PATH findAssociatedTokenPda).
Proof.
  unfold Kit.main, Kit.provision, Kit.loadKeypairSigner, Kit.fundPayer,
    Kit.createMint, Kit.ensureTokenAccount.
  ends_walk kit_ends.
Qed.

(** **** What the script can cost *)

Section KitBudget.
Variable f : tariff.
Hypothesis Hfair : fair f.

Lemma kit_send_budget (ixs : list instruction) (payer : address)
    (signers : list address) :
  costWithin (priced f) (perSubmission f)
    (Kit.sendAndConfirmTransaction ixs payer signers).
Proof.
  destruct Hfair as (Ha & Hq & Hs & Hm).
  unfold Kit.sendAndConfirmTransaction.
  eapply costWithin_mono_r; [cost_walk idtac|lia].
Qed.

Lemma kit_getTokenBalance_budget (a : address) :
  costWithin (priced f) 0 (Kit.getTokenBalance a).
Proof.
  apply costWithin_free; [lia|].
  split; [reflexivity|]. intros [e|[value|]]; cbn; try exact I.
  destruct (BigInt (amountString value)); exact I.
Qed.

Lemma kit_accountExists_budget (a : address) :
  costWithin (priced f) 0 (Kit.accountExists a).
Proof.
  apply costWithin_free; [lia|].
  split; [reflexivity|]. intros [e|v]; exact I.
Qed.

Lemma kit_airdropWithRetry_budget (publicKey : address) (amount : Z)
    (n : nat) :
  costWithin (priced f) (loopBudget (kitAttemptBudget f) f n 0)
    (Kit.airdropWithRetry publicKey amount n).
Proof. apply kit_loop_budget, Hfair. Qed.

Ltac kit_budget :=
  first
    [ apply kit_send_budget
    | apply kit_getTokenBalance_budget
    | apply kit_accountExists_budget
    | apply kit_airdropWithRetry_budget
    | idtac ].

Lemma kit_main_budget :
  costWithin (priced f)
    (loopBudget (kitAttemptBudget f) f 3 0 + 5 * perSubmission f)
    (Kit.main RPC_ENDPOINT PAYER_KEYPAIR_PATH findAssociatedTokenPda).
Proof.
  pose proof (loopBudget_nonneg f Hfair (kitAttemptBudget f) 3 0) as Hloop.
  destruct Hfair as (Ha & Hq & Hs & Hm).
  assert (0 <= kitAttemptBudget f)
    by (unfold kitAttemptBudget, Kit.pollInterval; lia).
  specialize (Hloop ltac:(assumption)).
  unfold Kit.main, Kit.provision, Kit.loadKeypairSigner, Kit.fundPayer,
    Kit.createMint, Kit.ensureTokenAccount.
  eapply costWithin_mono_r; [cost_walk kit_budget|lia].
Qed.

End KitBudget.

(** **** Airdrops are for the payer and for ten SOL *)

Lemma kit_send_airdrops (a : address) (n : Z) (ixs : list instruction)
    (payer : address) (signers : list address) :
  callsIn (airdropsOnly a n)
    (Kit.sendAndConfirmTransaction ixs payer signers).
Proof.
  unfold Kit.sendAndConfirmTransaction. calls_walk idtac; exact I.
Qed.

Lemma kit_funded_airdrops (payer : address) (balance : Z) :
  callsIn (airdropsOnly payer 10000000000)
    ((if balance <? fundingThreshold then Kit.fundPayer payer else Ret tt);;
     Kit.provision findAssociatedTokenPda payer).
Proof.
  unfold Kit.provision, Kit.createMint, Kit.ensureTokenAccount.
  calls_walk ltac:(first
    [ apply kit_send_airdrops
    | apply kit_getTokenBalance_calls, lenient_airdropsOnly
    | apply kit_accountExists_calls, lenient_airdropsOnly
    | apply kit_fundPayer_calls;
      [apply lenient_airdropsOnly|split; reflexivity]
    | idtac ]); exact I.
Qed.

End KitScript.

(** *** The parts of the raw script *)

Section RawParts.
Variable S : call -> Prop.
Hypothesis HS : lenient S.

Lemma raw_attempt_calls (publicKey : address) (amount : Z)
    (retries maxRetries : nat) :
  S (RequestAirdrop publicKey amount) ->
  callsIn S (Raw.airdropAttempt publicKey amount retries maxRetries).
Proof.
  intros Hreq. unfold Raw.airdropAttempt.
  calls_walk idtac; try exact (HS (Console _ _));
    try exact (HS GetLatestBlockhash);
    try exact (HS (ConfirmTransaction _ _)); exact Hreq.
Qed.

Lemma raw_loop_calls (publicKey : address) (amount : Z)
    (maxRetries fuel retries : nat) :
  S (RequestAirdrop publicKey amount) ->
  callsIn S (Raw.airdropLoop publicKey amount maxRetries fuel retries).
Proof.
  intros Hreq. revert retries.
  induction fuel as [|fuel IH]; intros retries; [exact I|].
  cbn [Raw.airdropLoop]. apply callsIn_try_catch.
  - apply callsIn_bind; [apply raw_attempt_calls, Hreq|intros s; exact I].
  - intros e. cbv zeta. destruct (message e) as [m|]; [|exact I].
    calls_walk ltac:(first [apply IH|idtac]);
      try exact (HS (Console _ _)); exact (HS (SetTimeout _)).
Qed.

Lemma raw_fundPayer_calls (payer : address) :
  S (RequestAirdrop payer (10 * LAMPORTS_PER_SOL)) ->
  callsIn S (Raw.fundPayer payer).
Proof.
  intros Hreq. unfold Raw.fundPayer, Raw.airdropWithRetry.
  calls_walk ltac:(first [apply raw_loop_calls; exact Hreq|idtac]);
    exact (HS (Console _ _)).
Qed.

End RawParts.

Section RawScript.
Variables (RPC_ENDPOINT PAYER_KEYPAIR_PATH : string).
Variable getAssociatedTokenAddress : address -> address -> address.

Lemma raw_createMintRaw_halts (payer mintAuthority : address)
    (freezeAuthority : option address) (decimals : Z) :
  haltsAfter rejectedSubmission
    (Raw.createMintRaw payer mintAuthority freezeAuthority decimals).
Proof. unfold Raw.createMintRaw. halts_walk idtac. Qed.

Lemma raw_getOrCreate_halts (payer mint owner : address) :
  haltsAfter rejectedSubmission
    (Raw.getOrCreateAssociatedTokenAccountRaw getAssociatedTokenAddress
       payer mint owner).
Proof.
  unfold Raw.getOrCreateAssociatedTokenAccountRaw. halts_walk idtac.
Qed.

Lemma raw_main_halts :
  haltsAfter rejectedSubmission
    (Raw.main RPC_ENDPOINT PAYER_KEYPAIR_PATH getAssociatedTokenAddress).
Proof.
  unfold Raw.main, Raw.provision, Raw.loadKeypair, Raw.mintToRaw,
    Raw.transferRaw.
  halts_walk ltac:(first
    [ apply raw_createMintRaw_halts
    | apply raw_getOrCreate_halts
    | apply haltsAfter_quiet, raw_fundPayer_calls;
      [apply lenient_noSubmit|apply noSubmit_airdrop]
    | idtac ]).
Qed.

Lemma raw_airdropWithRetry_ends (publicKey : address) (amount : Z)
    (n : nat) :
  endsIn (exitsOnlyWith 1) (Raw.airdropWithRetry publicKey amount n).
Proof.
  apply endsIn_noExit_exit.
  apply (endsIn_mono notThrottled); [|apply raw_loop_notThrottled].
  intros [a|e|c]; cbn; tauto.
Qed.

Lemma raw_main_ends :
  endsIn (exitsOnlyWith 1)
    (Raw.main RPC_ENDPOINT PAYER_KEYPAIR_PATH getAssociatedTokenAddress).
Proof.
  unfold Raw.main, Raw.provision, Raw.loadKeypair, Raw.mintToRaw,
    Raw.transferRaw, Raw.fundPayer, Raw.createMintRaw,
    Raw.getOrCreateAssociatedTokenAccountRaw.
  ends_walk ltac:(first [apply raw_airdropWithRetry_ends|idtac]).
Qed.

Section RawBudget.
Variable f : tariff.
Hypothesis Hfair : fair f.

Lemma raw_main_budget :
  costWithin (priced f)
    (loopBudget (rawAttemptBudget f) f 3 0 + 5 * perSubmission f)
    (Raw.main RPC_ENDPOINT PAYER_KEYPAIR_PATH getAssociatedTokenAddress).
Proof.
  pose proof (loopBudget_nonneg f Hfair (rawAttemptBudget f) 3 0) as Hloop.
  destruct Hfair as (Ha & Hq & Hs & Hm).
  specialize (Hloop ltac:(unfold rawAttemptBudget; lia)).
  unfold Raw.main, Raw.provision, Raw.loadKeypair, Raw.mintToRaw,
    Raw.transferRaw, Raw.fundPayer, Raw.createMintRaw,
    Raw.getOrCreateAssociatedTokenAccountRaw, Raw.airdropWithRetry.
  eapply costWithin_mono_r;
    [cost_walk ltac:(first [apply raw_loop_budget; exact Hfair|idtac])|lia].
Qed.

End RawBudget.

Lemma raw_funded_airdrops (payer : address) (balance : Z) :
  callsIn (airdropsOnly payer 10000000000)
    ((if balance <? fundingThreshold then Raw.fundPayer payer else Ret tt);;
     Raw.provision getAssociatedTokenAddress payer).
Proof.
  unfold Raw.provision, Raw.createMintRaw,
    Raw.getOrCreateAssociatedTokenAccountRaw, Raw.mintToRaw, Raw.transferRaw.
  calls_walk ltac:(first
    [ apply raw_fundPayer_calls;
      [apply lenient_airdropsOnly|split; reflexivity]
    | idtac ]); exact I.
Qed.

End RawScript.

(** *** The end of a script: [main().then(...).catch(...)] *)

Lemma script_run {W : Type} (h : boundary W) (m : prog unit)
    (done : list frag) (oops : error -> list frag) (w : W) :
  run h (try_catch (m;; console Log done;; Exit 0)
           (fun error => console Err (oops error);; Exit 1)) w =
  match run h m w with
  | (Resolved _, w1, t) =>
      (@Exited unit 0, after h [Console Log done] w1, t ++ [said Log done])
  | (Rejected e, w1, t) =>
      (@Exited unit 1, after h [Console Err (oops e)] w1,
       t ++ [said Err (oops e)])
  | (Exited c, w1, t) => (@Exited unit c, w1, t)
  end.
Proof.
  rewrite run_try_catch, run_bind.
  destruct (run h m w) as [[[[]|e|c] w1] t]; [| |reflexivity].
  - rewrite run_console. reflexivity.
  - rewrite run_console. reflexivity.
Qed.

Lemma airdropsOnly_sound (a0 : address) (n0 : Z) (t : list event) :
  Forall (airdropsOnly a0 n0) (calls t) ->
  forall a n, In (a, n) (airdrops t) -> a = a0 /\ n = n0.
Proof.
  unfold airdrops. induction (calls t) as [|c cs IH]; intros Hall a n Hin;
    [destruct Hin|].
  inversion Hall as [|? ? Hc Hcs]; subst.
  destruct c; try (apply IH; assumption).
  cbn in Hin. destruct Hin as [[= <- <-]|Hin]; [exact Hc|].
  apply IH; assumption.
Qed.

(** ** The scripts as a whole *)

Section Scripts.
Context {W : Type} (h : boundary W).
Variables (RPC_ENDPOINT PAYER_KEYPAIR_PATH : string).
Variable derive : address -> address -> address.

Lemma kit_script_run (w : W) :
  run h (Kit.script RPC_ENDPOINT PAYER_KEYPAIR_PATH derive) w =
  match run h (Kit.main RPC_ENDPOINT PAYER_KEYPAIR_PATH derive) w with
  | (Resolved _, w1, t) =>
      (@Exited unit 0,
       after h [Console Log [Txt (nl +:+ "✅ 程序执行成功")]] w1,
       t ++ [said Log [Txt (nl +:+ "✅ 程序执行成功")]])
  | (Rejected e, w1, t) =>
      (@Exited unit 1,
       after h [Console Err [Txt (nl +:+ "❌ 发生错误:"); Obj e]] w1,
       t ++ [said Err [Txt (nl +:+ "❌ 发生错误:"); Obj e]])
  | (Exited c, w1, t) => (@Exited unit c, w1, t)
  end.
Proof. unfold Kit.script. apply script_run. Qed.

Lemma raw_script_run (w : W) :
  run h (Raw.script RPC_ENDPOINT PAYER_KEYPAIR_PATH derive) w =
  match run h (Raw.main RPC_ENDPOINT PAYER_KEYPAIR_PATH derive) w with
  | (Resolved _, w1, t) =>
      (@Exited unit 0,
       after h [Console Log [Txt (nl +:+ "✅ 程序执行成功")]] w1,
       t ++ [said Log [Txt (nl +:+ "✅ 程序执行成功")]])
  | (Rejected e, w1, t) =>
      (@Exited unit 1,
       after h [Console Err [Txt (nl +:+ "❌ 发生错误:"); Obj e]] w1,
       t ++ [said Err [Txt (nl +:+ "❌ 发生错误:"); Obj e]])
  | (Exited c, w1, t) => (@Exited unit c, w1, t)
  end.
Proof. unfold Raw.script. apply script_run. Qed.

End Scripts.

(** X6.  Each script ends the process with code 0 or 1 and in no other way: 0
    exactly when [main] ran to its end, 1 when [main] raised an error or
    had itself exited after a failed funding. *)
Theorem script_exit_code :
  forall (W : Type) (h : boundary W) (endpoint keyPath : string)
         (derive : address -> address -> address) (w : W),
    (let r := run h (Raw.script endpoint keyPath derive) w in
     let m := run h (Raw.main endpoint keyPath derive) w in
     (result_of r = Exited 0 /\ result_of m = Resolved tt) \/
     (result_of r = Exited 1 /\ failed (result_of m))) /\
    (let r := run h (Kit.script endpoint keyPath derive) w in
     let m := run h (Kit.main endpoint keyPath derive) w in
     (result_of r = Exited 0 /\ result_of m = Resolved tt) \/
     (result_of r = Exited 1 /\ failed (result_of m))).
Proof.
  intros W h endpoint keyPath derive w. split; cbv zeta.
  - rewrite raw_script_run.
    pose proof (endsIn_sound h _ _ w (raw_main_ends endpoint keyPath derive))
      as Hexit.
    destruct (run h (Raw.main endpoint keyPath derive) w)
      as [[[[]|e|c] w1] t]; unfold result_of in *; cbn [fst] in *.
    + left. auto.
    + right. split; [reflexivity|exact I].
    + right. cbn in Hexit. subst c. split; [reflexivity|exact I].
  - rewrite kit_script_run.
    pose proof (endsIn_sound h _ _ w (kit_main_ends endpoint keyPath derive))
      as Hexit.
    destruct (run h (Kit.main endpoint keyPath derive) w)
      as [[[[]|e|c] w1] t]; unfold result_of in *; cbn [fst] in *.
    + left. auto.
    + right. split; [reflexivity|exact I].
    + right. cbn in Hexit. subst c. split; [reflexivity|exact I].
Qed.

Lemma snoc_split {X : Type} (t t1 t2 : list X) (x ev : X) :
  t ++ [x] = t1 ++ ev :: t2 ->
  (t2 = [] /\ ev = x /\ t = t1) \/
  (exists t2', t2 = t2' ++ [x] /\ t = t1 ++ ev :: t2').
Proof.
  revert t1. induction t as [|y t IH]; intros t1 Heq.
  - destruct t1 as [|z t1]; cbn in Heq.
    + injection Heq as -> <-. left. auto.
    + injection Heq as _ Heq. destruct t1; discriminate.
  - destruct t1 as [|z t1]; cbn in Heq.
    + injection Heq as -> <-. right. exists t. auto.
    + injection Heq as -> Heq. destruct (IH t1 Heq) as [(-> & -> & ->)|(t2' & -> & ->)].
      * left. auto.
      * right. exists t2'. auto.
Qed.

Section FailFast.
Context {W : Type} (h : boundary W).

(** What a halting [main] gives the script around it. *)
Lemma script_halts (m : prog unit) (done : list frag)
    (oops : error -> list frag) (w : W) (t1 t2 : list event) (ev : event) :
  haltsAfter rejectedSubmission m ->
  endsIn (exitsOnlyWith 1) m ->
  let script :=
    try_catch (m;; console Log done;; @Exit unit 0)
      (fun error => console Err (oops error);; Exit 1) in
  trace_of (run h script w) = t1 ++ ev :: t2 ->
  rejectedSubmission ev = true ->
  Forall isConsole (calls t2) /\ result_of (run h script w) = Exited 1.
Proof.
  intros Hhalt Hends script. subst script. rewrite script_run.
  pose proof (fun t1 t2 => haltsAfter_sound h rejectedSubmission m w t1 t2 ev
                             Hhalt) as Hsound.
  pose proof (endsIn_sound h _ m w Hends) as Hexit.
  destruct (run h m w) as [[[[]|e|c] w1] t];
    unfold trace_of, result_of in *; cbn [fst snd] in *; intros Ht Hbad.
  - exfalso. apply snoc_split in Ht.
    destruct Ht as [(_ & -> & _)|(t2' & _ & Ht)]; [discriminate|].
    destruct (Hsound t1 t2' Ht Hbad) as [_ []].
  - apply snoc_split in Ht.
    destruct Ht as [(_ & -> & _)|(t2' & -> & Ht)]; [discriminate|].
    destruct (Hsound t1 t2' Ht Hbad) as [Hc _]. split; [|reflexivity].
    rewrite calls_app. apply Forall_app. split; [exact Hc|].
    repeat constructor.
  - destruct (Hsound t1 t2 Ht Hbad) as [Hc _]. split; [exact Hc|].
    cbn in Hexit. now subst c.
Qed.

End FailFast.

(** X7.  A submission the boundary rejects is the last thing either script asks
    of the boundary: nothing is resubmitted, nothing further is read or
    sent, the rest of the run is console output only, and the process
    exits with code 1. *)
Theorem script_submission_failure_is_final :
  forall (W : Type) (h : boundary W) (endpoint keyPath : string)
         (derive : address -> address -> address) (w : W)
         (t1 t2 : list event) (ev : event),
    rejectedSubmission ev = true ->
    (trace_of (run h (Raw.script endpoint keyPath derive) w)
       = t1 ++ ev :: t2 ->
     Forall isConsole (calls t2) /\
     result_of (run h (Raw.script endpoint keyPath derive) w) = Exited 1) /\
    (trace_of (run h (Kit.script endpoint keyPath derive) w)
       = t1 ++ ev :: t2 ->
     Forall isConsole (calls t2) /\
     result_of (run h (Kit.script endpoint keyPath derive) w) = Exited 1).
Proof.
  intros W h endpoint keyPath derive w t1 t2 ev Hbad. split; intros Ht.
  - apply (script_halts h (Raw.main endpoint keyPath derive) _ _ w t1 t2 ev);
      [apply raw_main_halts|apply raw_main_ends|exact Ht|exact Hbad].
  - apply (script_halts h (Kit.main endpoint keyPath derive) _ _ w t1 t2 ev);
      [apply kit_main_halts|apply kit_main_ends|exact Ht|exact Hbad].
Qed.

Lemma script_submission_failure_is_final_witness :
  (rejectedSubmission (nth 10 (trace_of rawRejectedRun) (said Log [])) = true /\
   trace_of rawRejectedRun =
     firstn 10 (trace_of rawRejectedRun) ++
     nth 10 (trace_of rawRejectedRun) (said Log []) ::
     skipn 11 (trace_of rawRejectedRun) /\
   Forall isConsole (calls (skipn 11 (trace_of rawRejectedRun))) /\
   result_of rawRejectedRun = Exited 1) /\
  (rejectedSubmission (nth 11 (trace_of kitRejectedRun) (said Log [])) = true /\
   trace_of kitRejectedRun =
     firstn 11 (trace_of kitRejectedRun) ++
     nth 11 (trace_of kitRejectedRun) (said Log []) ::
     skipn 12 (trace_of kitRejectedRun) /\
   Forall isConsole (calls (skipn 12 (trace_of kitRejectedRun))) /\
   result_of kitRejectedRun = Exited 1).
Proof.
  assert (Hr : rejectedSubmission
                 (nth 10 (trace_of rawRejectedRun) (said Log [])) = true)
    by (vm_compute; reflexivity).
  assert (Hk : rejectedSubmission
                 (nth 11 (trace_of kitRejectedRun) (said Log [])) = true)
    by (vm_compute; reflexivity).
  assert (Hrt : trace_of rawRejectedRun =
                firstn 10 (trace_of rawRejectedRun) ++
                nth 10 (trace_of rawRejectedRun) (said Log []) ::
                skipn 11 (trace_of rawRejectedRun))
    by (vm_compute; reflexivity).
  assert (Hkt : trace_of kitRejectedRun =
                firstn 11 (trace_of kitRejectedRun) ++
                nth 11 (trace_of kitRejectedRun) (said Log []) ::
                skipn 12 (trace_of kitRejectedRun))
    by (vm_compute; reflexivity).
  split.
  - split; [exact Hr|]. split; [exact Hrt|].
    exact (proj1 (script_submission_failure_is_final unit rejecting
                    "https://api.devnet.solana.com" "./keypair.json"
                    deriveAta tt _ _ _ Hr) Hrt).
  - split; [exact Hk|]. split; [exact Hkt|].
    exact (proj2 (script_submission_failure_is_final unit rejecting
                    "https://api.devnet.solana.com" "./keypair.json"
                    deriveAta tt _ _ _ Hk) Hkt).
Defined.

Section ScriptBudgets.
Variables (endpoint keyPath : string).
Variable derive : address -> address -> address.
Variable f : tariff.
Hypothesis Hfair : fair f.

Lemma kit_script_budget :
  costWithin (priced f)
    (loopBudget (kitAttemptBudget f) f 3 0 + 5 * perSubmission f)
    (Kit.script endpoint keyPath derive).
Proof.
  pose proof (loopBudget_nonneg f Hfair (kitAttemptBudget f) 3 0) as Hloop.
  pose proof Hfair as (Ha & Hq & Hs & Hm).
  assert (0 <= kitAttemptBudget f)
    by (unfold kitAttemptBudget, Kit.pollInterval; lia).
  specialize (Hloop ltac:(assumption)).
  unfold Kit.script.
  eapply costWithin_mono_r;
    [cost_walk ltac:(first [apply kit_main_budget; exact Hfair|idtac])|lia].
Qed.

Lemma raw_script_budget :
  costWithin (priced f)
    (loopBudget (rawAttemptBudget f) f 3 0 + 5 * perSubmission f)
    (Raw.script endpoint keyPath derive).
Proof.
  pose proof (loopBudget_nonneg f Hfair (rawAttemptBudget f) 3 0) as Hloop.
  pose proof Hfair as (Ha & Hq & Hs & Hm).
  specialize (Hloop ltac:(unfold rawAttemptBudget; lia)).
  unfold Raw.script.
  eapply costWithin_mono_r;
    [cost_walk ltac:(first [apply raw_main_budget; exact Hfair|idtac])|lia].
Qed.

End ScriptBudgets.

(** X8.  Whatever the boundary answers, a run of either script submits at most
    five transactions and asks the faucet at most three times.  The raw
    script sleeps at most 14 s in all; the Kit script, which polls for the
    airdrop itself, makes at most 90 status queries and sleeps at most
    104 s. *)
Theorem script_bounded :
  forall (W : Type) (h : boundary W) (endpoint keyPath : string)
         (derive : address -> address -> address) (w : W),
    (let t := trace_of (run h (Raw.script endpoint keyPath derive) w) in
     (length (submissions t) <= 5)%nat /\
     (length (airdrops t) <= 3)%nat /\
     statusQueries t = [] /\
     timeSlept t <= 14000) /\
    (let t := trace_of (run h (Kit.script endpoint keyPath derive) w) in
     (length (submissions t) <= 5)%nat /\
     (length (airdrops t) <= 3)%nat /\
     (length (statusQueries t) <= 90)%nat /\
     timeSlept t <= 104000).
Proof.
  intros W h endpoint keyPath derive w.
  assert (Hfair : forall a q s m, 0 <= a -> 0 <= q -> 0 <= s -> 0 <= m ->
                                  fair (mkTariff a q s m))
    by (intros; apply fair_unit_prices; assumption).
  split; cbv zeta.
  - pose proof (costWithin_sound h submissionCost _ _ w
                  (raw_script_budget endpoint keyPath derive
                     (mkTariff 0 0 1 0) ltac:(apply Hfair; lia))) as Hs.
    pose proof (costWithin_sound h airdropCost _ _ w
                  (raw_script_budget endpoint keyPath derive
                     (mkTariff 1 0 0 0) ltac:(apply Hfair; lia))) as Ha.
    pose proof (costWithin_sound h statusQueryCost _ _ w
                  (raw_script_budget endpoint keyPath derive
                     (mkTariff 0 1 0 0) ltac:(apply Hfair; lia))) as Hq.
    pose proof (costWithin_sound h timerCost _ _ w
                  (raw_script_budget endpoint keyPath derive
                     (mkTariff 0 0 0 1) ltac:(apply Hfair; lia))) as Ht.
    rewrite totalCost_submissions in Hs. rewrite totalCost_airdrops in Ha.
    rewrite totalCost_statusQueries in Hq. rewrite totalCost_timeSlept in Ht.
    unfold loopBudget, rawAttemptBudget in *.
    cbn [perAirdrop perMillisecond perStatusQuery perSubmission backoffTotal]
      in *.
    change (waitTime 1) with 2000 in Ht. change (waitTime 2) with 4000 in Ht.
    change (waitTime 3) with 8000 in Ht.
    repeat split; try lia.
    destruct (statusQueries _); [reflexivity|cbn [length] in Hq; lia].
  - pose proof (costWithin_sound h submissionCost _ _ w
                  (kit_script_budget endpoint keyPath derive
                     (mkTariff 0 0 1 0) ltac:(apply Hfair; lia))) as Hs.
    pose proof (costWithin_sound h airdropCost _ _ w
                  (kit_script_budget endpoint keyPath derive
                     (mkTariff 1 0 0 0) ltac:(apply Hfair; lia))) as Ha.
    pose proof (costWithin_sound h statusQueryCost _ _ w
                  (kit_script_budget endpoint keyPath derive
                     (mkTariff 0 1 0 0) ltac:(apply Hfair; lia))) as Hq.
    pose proof (costWithin_sound h timerCost _ _ w
                  (kit_script_budget endpoint keyPath derive
                     (mkTariff 0 0 0 1) ltac:(apply Hfair; lia))) as Ht.
    rewrite totalCost_submissions in Hs. rewrite totalCost_airdrops in Ha.
    rewrite totalCost_statusQueries in Hq. rewrite totalCost_timeSlept in Ht.
    unfold loopBudget, kitAttemptBudget, Kit.maxPolls, Kit.pollInterval in *.
    cbn [perAirdrop perMillisecond perStatusQuery perSubmission backoffTotal]
      in *.
    change (waitTime 1) with 2000 in Ht. change (waitTime 2) with 4000 in Ht.
    change (waitTime 3) with 8000 in Ht.
    repeat split; lia.
Qed.

Section AirdropDiscipline.
Context {W : Type} (h : boundary W).
Variables (endpoint keyPath : string).
Variable derive : address -> address -> address.

Lemma kit_main_airdrops (w : W) (a : address) (n : Z) :
  let t := trace_of (run h (Kit.main endpoint keyPath derive) w) in
  In (a, n) (airdrops t) ->
  n = 10000000000 /\ In (keyPath, inr a) (keyReplies t).
Proof.
  cbv zeta. unfold Kit.main, Kit.loadKeypairSigner.
  rewrite !run_console, run_await.
  destruct (h (ReadKeypairFile keyPath) _) as [[e|payer] w2]; cbn [id];
    [intros Hin; exfalso; exact Hin|].
  rewrite run_console, run_await.
  destruct (h (GetBalance payer) _) as [[e|balance] w4]; cbn [id];
    [intros Hin; exfalso; exact Hin|].
  rewrite run_console.
  pose proof (callsIn_sound h _ _
                (after h [Console Log [Txt "💰 支付者余额: ";
                                        Quot balance 1000000000;
                                        Txt (" SOL" +:+ nl)]] w4)
                (kit_funded_airdrops derive payer balance)) as Hall.
  destruct (run h _ _) as [[o w6] t].
  unfold trace_of in *. cbn [snd] in *.
  intros Hin. change (In (a, n) (airdrops t)) in Hin.
  destruct (airdropsOnly_sound _ _ _ Hall a n Hin) as [-> ->].
  split; [reflexivity|]. left. reflexivity.
Qed.

Lemma raw_main_airdrops (w : W) (a : address) (n : Z) :
  let t := trace_of (run h (Raw.main endpoint keyPath derive) w) in
  In (a, n) (airdrops t) ->
  n = 10000000000 /\ In (keyPath, inr a) (keyReplies t).
Proof.
  cbv zeta. unfold Raw.main, Raw.loadKeypair.
  rewrite run_console, run_await.
  destruct (h GetLatestBlockhash _) as [[e|bh] w1]; cbn [id]; [intros Hin; exfalso; exact Hin|].
  rewrite run_console, run_await.
  destruct (h (ReadKeypairFile keyPath) _) as [[e|payer] w2]; cbn [id];
    [intros Hin; exfalso; exact Hin|].
  rewrite run_console, run_await.
  destruct (h (GetBalance payer) _) as [[e|balance] w4]; cbn [id];
    [intros Hin; exfalso; exact Hin|].
  rewrite run_console.
  pose proof (callsIn_sound h _ _
                (after h [Console Log [Txt "💰 支付者余额: ";
                                        Quot balance 1000000000;
                                        Txt (" SOL" +:+ nl)]] w4)
                (raw_funded_airdrops derive payer balance)) as Hall.
  destruct (run h _ _) as [[o w6] t].
  unfold trace_of in *. cbn [snd] in *.
  intros Hin. change (In (a, n) (airdrops t)) in Hin.
  destruct (airdropsOnly_sound _ _ _ Hall a n Hin) as [-> ->].
  split; [reflexivity|]. left. reflexivity.
Qed.

Lemma airdrops_snoc_console (t : list event) (l : level) (line : list frag) :
  airdrops (t ++ [said l line]) = airdrops t.
Proof. rewrite airdrops_app. apply app_nil_r. Qed.

Lemma keyReplies_app (t1 t2 : list event) :
  keyReplies (t1 ++ t2) = keyReplies t1 ++ keyReplies t2.
Proof. unfold keyReplies. apply omap_app. Qed.

End AirdropDiscipline.

(** X9.  Every airdrop either script requests is for exactly ten SOL
    (10 000 000 000 lamports) and for the address of the keypair it loaded
    from the configured key file; no other address is ever funded. *)
Theorem script_airdrops_only_to_payer :
  forall (W : Type) (h : boundary W) (endpoint keyPath : string)
         (derive : address -> address -> address) (w : W)
         (a : address) (n : Z),
    (let t := trace_of (run h (Raw.script endpoint keyPath derive) w) in
     In (a, n) (airdrops t) ->
     n = 10000000000 /\ In (keyPath, inr a) (keyReplies t)) /\
    (let t := trace_of (run h (Kit.script endpoint keyPath derive) w) in
     In (a, n) (airdrops t) ->
     n = 10000000000 /\ In (keyPath, inr a) (keyReplies t)).
Proof.
  intros W h endpoint keyPath derive w a n. split; cbv zeta.
  - rewrite raw_script_run.
    pose proof (raw_main_airdrops h endpoint keyPath derive w a n) as Hm.
    cbv zeta in Hm.
    destruct (run h (Raw.main endpoint keyPath derive) w)
      as [[[[]|e|c] w1] t]; unfold trace_of in *; cbn [snd] in *;
      rewrite ?airdrops_snoc_console, ?keyReplies_app; intros Hin;
      destruct (Hm Hin) as [Hn Hk]; split; auto; apply in_or_app; auto.
  - rewrite kit_script_run.
    pose proof (kit_main_airdrops h endpoint keyPath derive w a n) as Hm.
    cbv zeta in Hm.
    destruct (run h (Kit.main endpoint keyPath derive) w)
      as [[[[]|e|c] w1] t]; unfold trace_of in *; cbn [snd] in *;
      rewrite ?airdrops_snoc_console, ?keyReplies_app; intros Hin;
      destruct (Hm Hin) as [Hn Hk]; split; auto; apply in_or_app; auto.
Qed.

Lemma script_airdrops_only_to_payer_witness :
  In ("payer", 10000000000)
    (airdrops (trace_of (run calmly
                           (Kit.script "https://api.devnet.solana.com"
                              "./keypair.json" deriveAta) tt))) /\
  In ("./keypair.json", inr "payer")
    (keyReplies (trace_of (run calmly
                             (Kit.script "https://api.devnet.solana.com"
                                "./keypair.json" deriveAta) tt))).
Proof.
  assert (Hin : In ("payer", 10000000000)
                  (airdrops (trace_of (run calmly
                     (Kit.script "https://api.devnet.solana.com"
                        "./keypair.json" deriveAta) tt))))
    by (vm_compute; left; reflexivity).
  split; [exact Hin|].
  exact (proj2 (proj2 (script_airdrops_only_to_payer unit calmly
                         "https://api.devnet.solana.com" "./keypair.json"
                         deriveAta tt "payer" 10000000000) Hin)).
Defined.

(** ** The raw funding step under permanent rate limiting *)



(** ** Creating the mint with raw instructions *)

Lemma createMintRaw_run {W : Type} (h : boundary W)
    (payer mintAuthority : address) (freezeAuthority : option address)
    (decimals : Z) (w : W) :
  run h (Raw.createMintRaw payer mintAuthority freezeAuthority decimals) w =
  let '(mint, w1) := h GenerateKeyPair w in
  let '(r2, w2) := h (GetMinimumBalanceForRentExemption MINT_SIZE) w1 in
  match r2 with
  | inl e =>
      (Rejected e, w2,
       [existT GenerateKeyPair mint;
        existT (GetMinimumBalanceForRentExemption MINT_SIZE) r2])
  | inr mintRent =>
      let ixs :=
        [CreateAccount payer mint MINT_SIZE mintRent TOKEN_PROGRAM_ADDRESS;
         InitializeMint mint decimals mintAuthority freezeAuthority] in
      let '(r3, w3) := h (SendAndConfirmTransaction ixs [payer; mint]) w2 in
      match r3 with
      | inl e =>
          (Rejected e, w3,
           [existT GenerateKeyPair mint;
            existT (GetMinimumBalanceForRentExemption MINT_SIZE) r2;
            existT (SendAndConfirmTransaction ixs [payer; mint]) r3])
      | inr s =>
          (Resolved mint,
           after h [Console Log [Txt "   Mint 创建交易: "; Txt s]] w3,
           [existT GenerateKeyPair mint;
            existT (GetMinimumBalanceForRentExemption MINT_SIZE) r2;
            existT (SendAndConfirmTransaction ixs [payer; mint]) r3;
            said Log [Txt "   Mint 创建交易: "; Txt s]])
      end
  end.
Proof.
  unfold Raw.createMintRaw, perform.
  change (Call GenerateKeyPair Ret ≫= ?k)
    with (Call GenerateKeyPair (fun r => Ret r ≫= k)).
  cbn [run]. destruct (h GenerateKeyPair w) as [mint w1].
  rewrite run_ret_bind, run_await.
  destruct (h (GetMinimumBalanceForRentExemption MINT_SIZE) w1)
    as [[e|mintRent] w2]; cbn [id]; [reflexivity|].
  cbv zeta. rewrite run_await.
  destruct (h (SendAndConfirmTransaction _ _) w2) as [[e|s] w3]; cbn [id];
    [reflexivity|].
  rewrite run_console. reflexivity.
Qed.

(** X11.  [createMintRaw] asks for the rent of a mint account (82 bytes) before
    anything is sent, and sends nothing if that query fails.  It submits at
    most one transaction, signed by the payer and the new mint key, which
    creates the account it has just generated the key for, funded with
    exactly the rent reported and owned by the token program, and
    initialises that same account as a mint with the decimals and
    authorities given.  The address it returns is that account's, and it
    returns one only after the submission was accepted; a rejection by the
    boundary comes out as the error it is, without retry. *)
Theorem createMintRaw_submits_once :
  forall (W : Type) (h : boundary W) (payer mintAuthority : address)
         (freezeAuthority : option address) (decimals : Z) (w : W),
    let r := run h (Raw.createMintRaw payer mintAuthority freezeAuthority
                      decimals) w in
    let mint := (h GenerateKeyPair w).1 in
    (length (submissions (trace_of r)) <= 1)%nat /\
    (forall ixs, In ixs (submissions (trace_of r)) ->
       exists rent,
         rentReplies (trace_of r) = [(MINT_SIZE, inr rent)] /\
         ixs = [CreateAccount payer mint MINT_SIZE rent TOKEN_PROGRAM_ADDRESS;
                InitializeMint mint decimals mintAuthority freezeAuthority] /\
         signersOf (trace_of r) = [[payer; mint]]) /\
    (forall e, rentReplies (trace_of r) = [(MINT_SIZE, inl e)] ->
       result_of r = Rejected e /\ submissions (trace_of r) = []) /\
    (forall m, result_of r = Resolved m ->
       m = mint /\ length (submissions (trace_of r)) = 1%nat) /\
    (forall e ixs signers,
       In (existT (SendAndConfirmTransaction ixs signers) (inl e))
          (trace_of r) ->
       result_of r = Rejected e) /\
    noExit (result_of r).
Proof.
  intros W h payer mintAuthority freezeAuthority decimals w. cbv zeta.
  rewrite createMintRaw_run.
  destruct (h GenerateKeyPair w) as [mint w1]. cbn [fst].
  destruct (h (GetMinimumBalanceForRentExemption MINT_SIZE) w1)
    as [[e|rent] w2].
  - unfold result_of, trace_of. cbn [fst snd].
    split; [cbn; lia|]. split; [intros ixs []|].
    split; [intros e' [= <-]; auto|]. split; [discriminate|].
    split; [|exact I].
    intros e' ixs signers [Hin|[Hin|[]]]; discriminate.
  - cbv zeta.
    destruct (h (SendAndConfirmTransaction _ _) w2) as [[e|s] w3];
      unfold result_of, trace_of; cbn [fst snd].
    + split; [cbn; lia|].
      split; [intros ixs [<-|[]]; exists rent; auto|].
      split; [discriminate|]. split; [discriminate|]. split; [|exact I].
      intros e' ixs signers [Hin|[Hin|[Hin|[]]]]; try discriminate.
      apply (f_equal (fun ev : event =>
               match ev return option error with
               | existT (SendAndConfirmTransaction _ _) (inl e0) => Some e0
               | _ => None
               end)) in Hin.
      cbn in Hin. injection Hin as ->. reflexivity.
    + split; [cbn; lia|].
      split; [intros ixs [<-|[]]; exists rent; auto|].
      split; [discriminate|].
      split; [intros m [= <-]; auto|]. split; [|exact I].
      intros e' ixs signers [Hin|[Hin|[Hin|[Hin|[]]]]]; try discriminate.
      apply (f_equal (fun ev : event =>
               match ev return option error with
               | existT (SendAndConfirmTransaction _ _) (inl e0) => Some e0
               | _ => None
               end)) in Hin.
      cbn in Hin. discriminate.
Qed.

Lemma createMintRaw_submits_once_witness :
  In [CreateAccount "payer" "fresh" 82 1461600 TOKEN_PROGRAM_ADDRESS;
      InitializeMint "fresh" 9 "payer" (Some "payer")]
     (submissions
        (trace_of (run calmly
                     (Raw.createMintRaw "payer" "payer" (Some "payer") 9)
                     tt))) /\
  result_of (run calmly (Raw.createMintRaw "payer" "payer" (Some "payer") 9)
               tt) = Resolved "fresh" /\
  "fresh" = (calmly GenerateKeyPair tt).1.
Proof.
  split; [vm_compute; left; reflexivity|].
  assert (Hres : result_of (run calmly
                    (Raw.createMintRaw "payer" "payer" (Some "payer") 9) tt)
                 = Resolved "fresh") by (vm_compute; reflexivity).
  split; [exact Hres|].
  destruct (createMintRaw_submits_once unit calmly "payer" "payer"
              (Some "payer") 9 tt) as (_ & _ & _ & Hm & _).
  exact (proj1 (Hm "fresh" Hres)).
Defined.
